(** * DocumentationGenerator: a shallow embedding of [DocumentationGenerator.py]

    The script walks a repository, keeps the files whose extension is on an
    allow-list, asks a remote service for a documentation page per file,
    scans each file for include-style references, writes the page next to
    the file and finally assembles one overview document.

    Text is modelled by [string]: a character is a code point below 256, so
    the tables of [str.lower], [str.isspace] and of the regular expression
    class [\s] are those of Python restricted to that range.  A Python
    [dict] is an insertion-ordered association list ([PyDict]); the file
    system is a finite map from paths to file contents. *)

From Stdlib Require Import ZArith Ascii DecimalString.
From stdpp Require Import gmap strings list sorting.

Local Open Scope Z_scope.
Local Open Scope stdpp_scope.

(** ** Python [str] operations *)

Module PyStr.

Definition code (c : ascii) : N := N_of_ascii c.

(** [Py_UNICODE_ISSPACE] on code points below 256: used by [str.strip]
    and by the class [\s] of a [str] pattern. *)
Definition isspace (c : ascii) : bool :=
  let n := code c in
  ((9 <=? n) && (n <=? 13) || (28 <=? n) && (n <=? 32)
   || (n =? 133) || (n =? 160))%N.

(** [str.lower] on one code point below 256: A-Z and the Latin-1 capitals
    (0xC0-0xDE but the multiplication sign 0xD7) move up by 32. *)
Definition lower_char (c : ascii) : ascii :=
  let n := code c in
  if ((65 <=? n) && (n <=? 90)
      || (192 <=? n) && (n <=? 222) && negb (n =? 215))%N
  then ascii_of_N (n + 32) else c.

Fixpoint lower (s : string) : string :=
  match s with
  | EmptyString => EmptyString
  | String c s' => String (lower_char c) (lower s')
  end.

Fixpoint lstrip (s : string) : string :=
  match s with
  | EmptyString => EmptyString
  | String c s' => if isspace c then lstrip s' else s
  end.

(** [rstrip] keeps a character when it is not a space or when something
    is kept after it. *)
Fixpoint rstrip (s : string) : string :=
  match s with
  | EmptyString => EmptyString
  | String c s' =>
      match rstrip s' with
      | EmptyString => if isspace c then EmptyString else String c EmptyString
      | t => String c t
      end
  end.

Definition strip (s : string) : string := rstrip (lstrip s).

(** [s[:n]] and [s[n:]] for [0 <= n]. *)
Fixpoint take (n : nat) (s : string) : string :=
  match n, s with
  | S k, String c s' => String c (take k s')
  | _, _ => EmptyString
  end.

Fixpoint drop (n : nat) (s : string) : string :=
  match n, s with
  | S k, String _ s' => drop k s'
  | _, _ => s
  end.

(** [s.rfind(c)] for a one-character needle: the last index, or -1. *)
Fixpoint rfind (s : string) (c : ascii) : Z :=
  match s with
  | EmptyString => -1
  | String a s' =>
      let i := rfind s' c in
      if 0 <=? i then i + 1 else if Ascii.eqb a c then 0 else -1
  end.

Definition startswith (s : string) (c : ascii) : bool :=
  match s with
  | String a _ => Ascii.eqb a c
  | EmptyString => false
  end.

Fixpoint last_char (s : string) : option ascii :=
  match s with
  | EmptyString => None
  | String c EmptyString => Some c
  | String _ s' => last_char s'
  end.

Definition endswith (s : string) (c : ascii) : bool :=
  match last_char s with
  | Some a => Ascii.eqb a c
  | None => false
  end.

(** [s.rstrip(c)] for a one-character set. *)
Fixpoint rstrip_char (c : ascii) (s : string) : string :=
  match s with
  | EmptyString => EmptyString
  | String a s' =>
      match rstrip_char c s' with
      | EmptyString => if Ascii.eqb a c then EmptyString else String a EmptyString
      | t => String a t
      end
  end.

(** [s == c * len(s)]: every character of [s] is [c]. *)
Fixpoint all_char (c : ascii) (s : string) : bool :=
  match s with
  | EmptyString => true
  | String a s' => Ascii.eqb a c && all_char c s'
  end.

(** [sep.join(ls)] *)
Definition join (sep : string) (ls : list string) : string :=
  String.concat sep ls.

(** [str(n)] for a natural number, as an f-string prints it. *)
Definition of_nat (n : nat) : string :=
  DecimalString.NilZero.string_of_uint (Nat.to_uint n).

End PyStr.

(** ** [os.path] on a POSIX platform *)

Module OsPath.
Import PyStr.

Definition sep : ascii := "/"%char.
Definition extsep : ascii := "."%char.

(** The loop of [genericpath._splitext] that skips leading dots: [true]
    when some character of [p[filenameIndex:dotIndex]] is not a dot. *)
Fixpoint has_non_dot (p : string) (filenameIndex : nat) (steps : nat) : bool :=
  match steps with
  | O => false
  | S k =>
      match String.get filenameIndex p with
      | Some c =>
          if Ascii.eqb c extsep then has_non_dot p (S filenameIndex) k
          else true
      | None => true
      end
  end.

Definition splitext (p : string) : string * string :=
  let sepIndex := rfind p sep in
  let dotIndex := rfind p extsep in
  if (sepIndex <? dotIndex)
     && has_non_dot p (Z.to_nat (sepIndex + 1))
                      (Z.to_nat (dotIndex - (sepIndex + 1)))
  then (take (Z.to_nat dotIndex) p, drop (Z.to_nat dotIndex) p)
  else (p, EmptyString).

Definition basename (p : string) : string :=
  drop (Z.to_nat (rfind p sep + 1)) p.

Definition dirname (p : string) : string :=
  let head := take (Z.to_nat (rfind p sep + 1)) p in
  if negb (String.eqb head EmptyString) && negb (all_char sep head)
  then rstrip_char sep head else head.

(** [os.path.join(a, b)] with two arguments. *)
Definition join (a b : string) : string :=
  if startswith b sep then b
  else if String.eqb a EmptyString || endswith a sep then a +:+ b
  else a +:+ String sep b.

End OsPath.

(** ** Regular expressions: the fragment of [re] the two patterns use *)

Module Re.
Import PyStr.

Inductive regex : Type :=
| Lit (l : string)                       (* a literal string *)
| Class (p : ascii -> bool)              (* one character of a class *)
| Seq (r1 r2 : regex)                    (* r1 r2 *)
| Alt (r1 r2 : regex)                    (* r1|r2 *)
| Opt (r : regex)                        (* r?, greedy *)
| Rep (min : nat) (p : ascii -> bool)    (* greedy repetition of a class:
                                            [p*] for 0, [p+] for 1 *)
| Group (n : nat) (r : regex).           (* capturing group number n *)

(** Captured groups, by number. *)
Definition captures : Type := gmap nat string.

(** What is left to match after a sub-pattern: [re] is a backtracking
    matcher, so a sub-pattern is run against its continuation and tries
    its alternatives in order until the continuation succeeds. *)
Definition cont : Type := string -> captures -> option (captures * string).

Fixpoint lit_rest (l s : string) : option string :=
  match l, s with
  | EmptyString, _ => Some s
  | String a l', String b s' => if Ascii.eqb a b then lit_rest l' s' else None
  | String _ _, EmptyString => None
  end.

(** Greedy repetition: take one more character first, give it back when
    the continuation fails. *)
Fixpoint rep_greedy (p : ascii -> bool) (min : nat) (s : string)
         (caps : captures) (k : cont) : option (captures * string) :=
  let stop := match min with O => k s caps | S _ => None end in
  match s with
  | String c s' =>
      if p c then
        match rep_greedy p (Nat.pred min) s' caps k with
        | Some res => Some res
        | None => stop
        end
      else stop
  | EmptyString => stop
  end.

Fixpoint exec (r : regex) (s : string) (caps : captures) (k : cont)
  : option (captures * string) :=
  match r with
  | Lit l =>
      match lit_rest l s with
      | Some rest => k rest caps
      | None => None
      end
  | Class p =>
      match s with
      | String c s' => if p c then k s' caps else None
      | EmptyString => None
      end
  | Seq r1 r2 => exec r1 s caps (fun s1 caps1 => exec r2 s1 caps1 k)
  | Alt r1 r2 =>
      match exec r1 s caps k with
      | Some res => Some res
      | None => exec r2 s caps k
      end
  | Opt r1 =>
      match exec r1 s caps k with
      | Some res => Some res
      | None => k s caps
      end
  | Rep min p => rep_greedy p min s caps k
  | Group n r1 =>
      exec r1 s caps
           (fun s1 caps1 =>
              k s1 (<[n := take (String.length s - String.length s1) s]> caps1))
  end.

(** The match of [r] that starts at the first character of [s]: the
    captured groups and the unread rest of [s]. *)
Definition match_at (r : regex) (s : string) : option (captures * string) :=
  exec r s ∅ (fun rest caps => Some (caps, rest)).

Record Match : Type :=
  { m_start : nat; m_end : nat; m_groups : captures }.

(** [m.group(i)] as [findall] reports it: the empty string for a group
    that took no part in the match. *)
Definition group (m : Match) (i : nat) : string := default "" (m_groups m !! i).

(** The scan of [re.finditer]: the leftmost match from the current
    position, then on from where it ended.  [s] is the text from offset
    [pos] on and [skip] the number of characters still covered by the
    previous match.  After a match of no character the scan moves one
    character on; both patterns below need at least one character
    ([pattern_consumes]), so that case does not arise for them. *)
Fixpoint scan (r : regex) (s : string) (pos skip : nat) : list Match :=
  match skip with
  | S k =>
      match s with
      | String _ s' => scan r s' (S pos) k
      | EmptyString => []
      end
  | O =>
      match match_at r s with
      | Some (caps, rest) =>
          let n := (String.length s - String.length rest)%nat in
          {| m_start := pos; m_end := (pos + n)%nat; m_groups := caps |}
            :: match s with
               | String _ s' => scan r s' (S pos) (Nat.pred n)
               | EmptyString => []
               end
      | None =>
          match s with
          | String _ s' => scan r s' (S pos) 0
          | EmptyString => []
          end
      end
  end.

Definition finditer (r : regex) (s : string) : list Match := scan r s 0 0.

(** Number of capturing groups of a pattern. *)
Fixpoint ngroups (r : regex) : nat :=
  match r with
  | Lit _ | Class _ | Rep _ _ => 0
  | Seq r1 r2 | Alt r1 r2 => ngroups r1 + ngroups r2
  | Opt r1 => ngroups r1
  | Group _ r1 => S (ngroups r1)
  end.

(** [re.findall]: per match the tuple of its groups 1..n (for a pattern
    with one group Python hands out that group itself, the only component
    of the tuple here). *)
Definition findall (r : regex) (s : string) : list (list string) :=
  map (fun m => map (group m) (seq 1 (ngroups r))) (finditer r s).

(** Character classes of the two patterns. *)
Definition quote (c : ascii) : bool :=
  Ascii.eqb c "'"%char || Ascii.eqb c "034"%char.
Definition not_quote (c : ascii) : bool := negb (quote c).
Definition is_char (a : ascii) (c : ascii) : bool := Ascii.eqb c a.
Definition not_semicolon_space (c : ascii) : bool :=
  negb (Ascii.eqb c ";"%char || isspace c).

(** The least number of characters a match of [r] takes. *)
Fixpoint min_len (r : regex) : nat :=
  match r with
  | Lit l => String.length l
  | Class _ => 1
  | Seq r1 r2 => min_len r1 + min_len r2
  | Alt r1 r2 => Nat.min (min_len r1) (min_len r2)
  | Opt _ => 0
  | Rep min _ => min
  | Group _ r1 => min_len r1
  end.

(** The matches of a pattern in a text, in order of appearance, as the
    documentation of [re] words it: the leftmost match at or after offset
    [from], then the matches found from where it ended (one character on
    after a match of no character). *)
Inductive found_from (r : regex) (content : string) : nat -> list Match -> Prop :=
| found_none (from : nat) :
    (forall i, (from <= i <= String.length content)%nat ->
               match_at r (drop i content) = None) ->
    found_from r content from []
| found_cons (from i : nat) (caps : captures) (rest : string) (ms : list Match) :
    (from <= i <= String.length content)%nat ->
    (forall j, (from <= j < i)%nat -> match_at r (drop j content) = None) ->
    match_at r (drop i content) = Some (caps, rest) ->
    found_from r content
      (i + Nat.max 1 (String.length (drop i content) - String.length rest)) ms ->
    found_from r content from
      ({| m_start := i;
          m_end := i + (String.length (drop i content) - String.length rest);
          m_groups := caps |} :: ms).

End Re.

(** ** Configuration *)

(** The one-character string made of a double quote. *)
Definition dq : string := String "034"%char EmptyString.

Definition LOCAL_REPO_PATH : string := "./".
Definition FILE_EXTENSIONS : list string := [".sql"; ".sh"; ".php"].
Definition OVERVIEW_FILENAME : string := "PROJECT_OVERVIEW.md".

(** [(include|require)(_once)?\s*\(?Q([^Q]+)Q\)?] where [Q] stands for the
    class of the single and the double quote character. *)
Definition PHP_INCLUDE_PATTERN : Re.regex :=
  Re.Seq (Re.Group 1 (Re.Alt (Re.Lit "include") (Re.Lit "require")))
  (Re.Seq (Re.Opt (Re.Group 2 (Re.Lit "_once")))
  (Re.Seq (Re.Rep 0 PyStr.isspace)
  (Re.Seq (Re.Opt (Re.Class (Re.is_char "("%char)))
  (Re.Seq (Re.Class Re.quote)
  (Re.Seq (Re.Group 3 (Re.Rep 1 Re.not_quote))
  (Re.Seq (Re.Class Re.quote)
          (Re.Opt (Re.Class (Re.is_char ")"%char))))))))).

(** [\\i\s+([^;\s]+)]: a backslash, the letter i, spaces, a token. *)
Definition SQL_INCLUDE_PATTERN : Re.regex :=
  Re.Seq (Re.Lit "\i")
  (Re.Seq (Re.Rep 1 PyStr.isspace)
          (Re.Group 1 (Re.Rep 1 Re.not_semicolon_space))).

(** ** Reference Scanner *)

Definition find_references_in_content (file_path content : string) : list string :=
  let ext := PyStr.lower (snd (OsPath.splitext file_path)) in
  let references := [] in
  if String.eqb ext ".php" then
    let matches := Re.findall PHP_INCLUDE_PATTERN content in
    references ++ map (fun m => nth 2 m "") matches
  else if String.eqb ext ".sql" then
    let matches := Re.findall SQL_INCLUDE_PATTERN content in
    references ++ map (fun m => PyStr.strip (nth 0 m "")) matches
  else references.

(** The text [include("a/b.php"); require_once('c.php');]. *)
Definition php_sample : string :=
  "include(" +:+ dq +:+ "a/b.php" +:+ dq +:+ "); require_once('c.php');".

Definition sql_sample : string := "\i seed_data.sql;".

(** ** Python [dict]: insertion-ordered, one entry per key *)

Module PyDict.
Section dict.
Context {V : Type}.

Definition t : Type := list (string * V).

Definition empty : t := [].

(** [d.get(k)] *)
Fixpoint get (d : t) (k : string) : option V :=
  match d with
  | [] => None
  | (k', v) :: d' => if String.eqb k' k then Some v else get d' k
  end.

(** [d[k] = v]: a known key keeps its place, a new one goes last. *)
Fixpoint setitem (d : t) (k : string) (v : V) : t :=
  match d with
  | [] => [(k, v)]
  | (k', v') :: d' =>
      if String.eqb k' k then (k', v) :: d' else (k', v') :: setitem d' k v
  end.

(** [d.keys()], in insertion order. *)
Definition keys (d : t) : list string := map fst d.

(** The invariant of a [dict]: no key twice. *)
Definition wf (d : t) : Prop := NoDup (keys d).

(** Two dicts that hold the same entries, whatever the insertion order. *)
Definition same_entries (d1 d2 : t) : Prop := forall k, get d1 k = get d2 k.
End dict.
Arguments t : clear implicits.
End PyDict.

(** ** Values of a parsed JSON document *)

(** What [response.json()] and its indexing can hand out: the requester
    returns such a value unchecked, so the docs mapping of [main] holds
    values, texts among them. *)
#[local] Unset Elimination Schemes.
Inductive json : Type :=
| JNull
| JBool (b : bool)
| JInt (z : Z)
| JFloat (literal : string)
| JString (s : string)
| JArray (items : list json)
| JObject (members : list (string * json)).
#[local] Set Elimination Schemes.

(** [type(v).__name__] *)
Definition type_name (v : json) : string :=
  match v with
  | JNull => "NoneType"
  | JBool _ => "bool"
  | JInt _ => "int"
  | JFloat _ => "float"
  | JString _ => "str"
  | JArray _ => "list"
  | JObject _ => "dict"
  end.

Definition is_text (v : json) : bool :=
  match v with JString _ => true | _ => false end.

(** A mapping of texts, as a mapping of values. *)
Definition text_values (d : PyDict.t string) : PyDict.t json :=
  map (fun kv => (fst kv, JString (snd kv))) d.

(** ** State and exceptions: a computation changes the state and returns a
    value or raises; what it did before raising stays done. *)

(** Where an exception comes from: the three callees of the per-file
    block, or the assembler. *)
Inductive stage : Type := Reading | Requesting | Writing | Assembling.

(** A Python exception: where it was raised and its text, [str(e)]. *)
Record exn : Type := { raised_in : stage; exn_text : string }.

Definition M (S A : Type) : Type := S -> (exn + A) * S.

Definition ret {S A} (a : A) : M S A := fun s => (inr a, s).

Definition raise {S A} (e : exn) : M S A := fun s => (inl e, s).

Definition bind {S A B} (c : M S A) (k : A -> M S B) : M S B :=
  fun s =>
    match c s with
    | (inr a, s') => k a s'
    | (inl e, s') => (inl e, s')
    end.

#[global] Instance M_ret {S} : MRet (M S) := fun A => ret.
#[global] Instance M_bind {S} : MBind (M S) := fun A B k c => bind c k.

Definition gets {S A} (f : S -> A) : M S A := fun s => (inr (f s), s).

(** The outcome of a call that has no part in the state. *)
Definition returned {S A} (r : exn + A) : M S A := fun s => (r, s).

(** [for x in l: body(x)] *)
Fixpoint for_each {S A} (l : list A) (body : A -> M S unit) : M S unit :=
  match l with
  | [] => ret tt
  | x :: l' => body x ;; for_each l' body
  end.

(** ** Overview Assembler *)

(** [sorted] on strings: by code point, lexicographically.  Keys of a dict
    are distinct, so the result is the one sorted arrangement of them. *)
Definition sorted (l : list string) : list string := merge_sort String.le l.

(** The paths that get a section, in the order of their sections. *)
Definition section_paths {V} (file_docs : PyDict.t V) : list string :=
  sorted (PyDict.keys file_docs).

(** The frame of [generate_overview_document]: its two arguments, which are
    the caller's objects, and the local list [lines]. *)
Record OverviewFrame : Type :=
  { ov_file_docs : PyDict.t json;
    ov_file_references : PyDict.t (list string);
    ov_lines : list string }.

(** [lines.append(x)] *)
Definition lines_append (x : string) : M OverviewFrame unit :=
  fun fr =>
    (inr tt, {| ov_file_docs := ov_file_docs fr;
                ov_file_references := ov_file_references fr;
                ov_lines := ov_lines fr ++ [x] |}).

Definition overview_intro : string :=
  "This document provides a high-level summary of the codebase, including file-by-file documentation and references.".

(** The [KeyError] of [d[k]] (its text is the key in quotes, for a key
    that needs no escape) and the [AttributeError] of [v.strip()]. *)
Definition key_error (k : string) : exn :=
  {| raised_in := Assembling; exn_text := "'" +:+ k +:+ "'" |}.

Definition no_strip_error (v : json) : exn :=
  {| raised_in := Assembling;
     exn_text := "'" +:+ type_name v +:+ "' object has no attribute 'strip'" |}.

(** [d[k]]: a [KeyError] for a key that is not there. *)
Definition getitem {S V} (d : PyDict.t V) (k : string) : M S V :=
  match PyDict.get d k with
  | Some v => ret v
  | None => raise (key_error k)
  end.

(** [doc_text.strip()]: only a text has the method, any other value gives
    an [AttributeError]. *)
Definition strip_method {S} (doc_text : json) : M S string :=
  match doc_text with
  | JString s => ret (PyStr.strip s)
  | _ => raise (no_strip_error doc_text)
  end.

(** One turn of the loop over the sorted paths. *)
Definition overview_loop_body (path : string) : M OverviewFrame unit :=
  file_docs ← gets ov_file_docs;
  file_references ← gets ov_file_references;
  doc_text ← getitem file_docs path;
  let refs := default [] (PyDict.get file_references path) in
  lines_append ("## " +:+ path) ;;
  lines_append "" ;;
  lines_append "**Documentation**" ;;
  lines_append "" ;;
  stripped ← strip_method doc_text;
  lines_append stripped ;;
  lines_append "" ;;
  match refs with
  | [] => ret tt
  | _ :: _ =>
      lines_append "**References / Includes**" ;;
      lines_append "" ;;
      for_each refs (fun r => lines_append ("- " +:+ r)) ;;
      lines_append ""
  end.

(** The body of [generate_overview_document] up to the [return]. *)
Definition overview_body : M OverviewFrame unit :=
  lines_append "# Project Overview" ;;
  lines_append "" ;;
  lines_append overview_intro ;;
  lines_append "" ;;
  file_docs ← gets ov_file_docs;
  for_each (section_paths file_docs) overview_loop_body.

(** The body run on the two arguments: its outcome and the frame it
    leaves. *)
Definition overview_run (file_docs : PyDict.t json)
           (file_references : PyDict.t (list string))
  : (exn + unit) * OverviewFrame :=
  overview_body {| ov_file_docs := file_docs;
                   ov_file_references := file_references;
                   ov_lines := [] |}.

Definition newline : string := String "010"%char EmptyString.

Definition generate_overview_document (file_docs : PyDict.t json)
           (file_references : PyDict.t (list string)) : exn + string :=
  match overview_run file_docs file_references with
  | (inr _, fr) => inr (PyStr.join newline (ov_lines fr))
  | (inl e, _) => inl e
  end.

(** The overview as the specification words it, for a docs mapping of
    texts: a title and an intro, then per path, in sorted order, a section:
    the path as heading, the trimmed documentation under a subheading and,
    if the path has references, the bulleted references under another. *)
Definition spec_doc_part (file_docs : PyDict.t string) (path : string)
  : list string :=
  ["## " +:+ path; ""; "**Documentation**"; "";
   PyStr.strip (default "" (PyDict.get file_docs path)); ""].

Definition spec_refs_part (file_references : PyDict.t (list string))
           (path : string) : list string :=
  match default [] (PyDict.get file_references path) with
  | [] => []
  | refs => ["**References / Includes**"; ""]
            ++ map (fun r => "- " +:+ r) refs ++ [""]
  end.

Definition spec_section (file_docs : PyDict.t string)
           (file_references : PyDict.t (list string)) (path : string)
  : list string :=
  spec_doc_part file_docs path ++ spec_refs_part file_references path.

Definition spec_header : list string :=
  ["# Project Overview"; ""; overview_intro; ""].

(** Every character of [s] is in the class [p]. *)
Fixpoint str_all (p : ascii -> bool) (s : string) : bool :=
  match s with
  | EmptyString => true
  | String a s' => p a && str_all p s'
  end.

(** [c in s] for a one-character [c]. *)
Definition has_char (c : ascii) (s : string) : bool :=
  negb (str_all (fun a => negb (Ascii.eqb a c)) s).

(** "With surrounding white space trimmed", in the words of the
    specification and without reference to the code: [s] is [t] between two
    runs of white space, and [t] neither begins nor ends with white space. *)
Definition trimmed_of (s t : string) : Prop :=
  (exists l r, s = l +:+ t +:+ r
               /\ str_all PyStr.isspace l = true
               /\ str_all PyStr.isspace r = true)
  /\ (forall c, String.get 0 t = Some c -> PyStr.isspace c = false)
  /\ (forall c, PyStr.last_char t = Some c -> PyStr.isspace c = false).

(** ** The world the script runs in *)

(** What one HTTP request to the service leads to.  The content of a reply
    that gets through the indexing is whatever value the reply holds at
    [choices[0].message.content]. *)
Inductive reply : Type :=
| ConnectionFailed (why : string)   (* [requests.post] raises *)
| BadStatus (why : string)          (* [raise_for_status] raises *)
| Malformed (why : string)          (* [json()] or the indexing raises *)
| Completion (content : json).      (* [choices[0].message.content] *)

(** The lines the script prints. *)
Inductive message : Type :=
| MsgTraversing
| MsgNoRelevant
| MsgTotal (n : nat)
| MsgProcessing (file_path : string)
| MsgRead (file_path : string)
| MsgGenerated (file_path : string)
| MsgFound (n : nat) (file_path : string)
| MsgFileSaved (output_file_path : string)
| MsgFailed (file_path : string) (e : string)
| MsgGenerating
| MsgOverviewSaved (overview_path : string)
| MsgAllDone.

Definition render (m : message) : string :=
  match m with
  | MsgTraversing => "Traversing local repository..."
  | MsgNoRelevant => "No relevant files found for processing."
  | MsgTotal n => "Total relevant files found: " +:+ PyStr.of_nat n
  | MsgProcessing f => "Processing file: " +:+ f
  | MsgRead f => "Read content of " +:+ f +:+ " successfully."
  | MsgGenerated f => "Generated documentation for " +:+ f +:+ "."
  | MsgFound n f =>
      "Found " +:+ PyStr.of_nat n +:+ " references in " +:+ f +:+ "."
  | MsgFileSaved o => "File saved: " +:+ o
  | MsgFailed f e => "Failed to process file " +:+ f +:+ ": " +:+ e
  | MsgGenerating => "Generating overview document..."
  | MsgOverviewSaved o => "Overview saved: " +:+ o
  | MsgAllDone => "All done."
  end.

(** What the script does to the outside, oldest first. *)
Inductive event : Type :=
| Print (m : message)
| Requested (file_path prompt : string)
    (* [generate_documentation_with_openai(file_path, _)] sends its request *)
| FileOpened (path : string)
    (* [open(path, "w")] made the file or emptied it *)
| FileWrite (path text : string).
    (* [file.write(text)] put the text into the open file *)

(** The outside: the text files that can be read, and what happened.
    Directories are not part of it. *)
Record World : Type :=
  { fs : gmap string string; trace : list event }.

(** What the script cannot decide: what a walk yields, a triple
    [(root, dirs, files)] per directory; the reply of the service to its
    n-th request; whether a directory can be made, a file opened for
    writing, and a text written to the open file; what a write that fails
    leaves in the file; and the text of the error the system or the decoder
    reports for a path. *)
Record Env : Type :=
  { os_walk : string -> list (string * list string * list string);
    service : nat -> string -> reply;
    makedirs_ok : string -> bool;
    open_write_ok : string -> bool;
    write_ok : string -> bool;
    torn_write : string -> string -> string;
    os_error_text : string -> string }.

Definition emit (e : event) : M World unit :=
  fun w => (inr tt, {| fs := fs w; trace := trace w ++ [e] |}).

Definition print (m : message) : M World unit := emit (Print m).

Definition is_request (e : event) : bool :=
  match e with Requested _ _ => true | _ => false end.

(** Number of requests sent so far. *)
Definition requests (w : World) : nat :=
  length (List.filter is_request (trace w)).

(** Number of times a list of events writes a text to the file at [path]. *)
Definition writes_to (path : string) (evs : list event) : nat :=
  length (List.filter
            (fun e => match e with
                      | FileWrite p _ => String.eqb p path
                      | _ => false
                      end) evs).

(** The outside and the two local mappings of [main]. *)
Record MainState : Type :=
  { world : World;
    file_docs : PyDict.t json;
    file_references : PyDict.t (list string) }.

(** The two nested loops of [traverse_local_files] over what [os.walk]
    yields. *)
Definition collect_walk (walk : list (string * list string * list string))
           (file_list : list string) : list string :=
  fold_left
    (fun file_list '(root, dirs, files) =>
       fold_left (fun file_list file => file_list ++ [OsPath.join root file])
                 files file_list)
    walk file_list.

Section Script.
Context (env : Env).

(** *** File Walker *)
Definition traverse_local_files (path : string) (file_list : option (list string))
  : list string :=
  let file_list := default [] file_list in
  collect_walk (os_walk env path) file_list.

(** *** Content Reader: a file that cannot be opened or decoded is one
    that [fs] does not hold. *)
Definition read_file_content (path : string) : M World string :=
  fun w =>
    match fs w !! path with
    | Some text => (inr text, w)
    | None =>
        (inl {| raised_in := Reading; exn_text := os_error_text env path |}, w)
    end.

(** *** Per-File Writer *)
Definition doc_output_path (original_file_path suffix : string) : string :=
  let base_dir := OsPath.dirname original_file_path in
  let base_name := fst (OsPath.splitext (OsPath.basename original_file_path)) in
  OsPath.join base_dir (base_name +:+ suffix).

(** [os.makedirs(base_dir, exist_ok=True)]: the empty path always fails. *)
Definition makedirs (base_dir : string) : M World unit :=
  if String.eqb base_dir ""
  then raise {| raised_in := Writing;
                exn_text := "[Errno 2] No such file or directory: ''" |}
  else if makedirs_ok env base_dir then ret tt
  else raise {| raised_in := Writing; exn_text := os_error_text env base_dir |}.

(** [open(path, "w")]: the file is there and empty from here on. *)
Definition open_write (path : string) : M World unit :=
  fun w =>
    if open_write_ok env path
    then (inr tt, {| fs := <[path := ""]> (fs w);
                     trace := trace w ++ [FileOpened path] |})
    else (inl {| raised_in := Writing; exn_text := os_error_text env path |}, w).

(** [file.write(content)] on the file just opened: a [TypeError] for a
    content that is no text, which leaves the file as [open] left it; an
    error of the system when the text cannot be written, which leaves in
    the file what got through. *)
Definition file_write (path : string) (content : json) : M World unit :=
  fun w =>
    match content with
    | JString text =>
        if write_ok env path
        then (inr tt, {| fs := <[path := text]> (fs w);
                         trace := trace w ++ [FileWrite path text] |})
        else (inl {| raised_in := Writing;
                     exn_text := os_error_text env path |},
              {| fs := <[path := torn_write env path text]> (fs w);
                 trace := trace w |})
    | _ =>
        (inl {| raised_in := Writing;
                exn_text := "write() argument must be str, not "
                              +:+ type_name content |}, w)
    end.

(** [with open(path, "w") as file: file.write(content)] *)
Definition write_file (path : string) (content : json) : M World unit :=
  open_write path ;;
  file_write path content.

Definition save_file_in_same_directory
           (original_file_path : string) (content : json) (suffix : string)
  : M World string :=
  let output_file_path := doc_output_path original_file_path suffix in
  makedirs (OsPath.dirname original_file_path) ;;
  write_file output_file_path content ;;
  print (MsgFileSaved output_file_path) ;;
  ret output_file_path.

(** *** Documentation Requester *)
Definition prompt_text (file_path file_content : string) : string :=
  newline +:+ "Can you write a short page documenting this scrfipt? "
    +:+ snd (OsPath.splitext file_path) +:+ newline
    +:+ "File content:" +:+ newline +:+ file_content +:+ newline.

Definition generate_documentation_with_openai (file_path file_content : string)
  : M World json :=
  fun w =>
    let prompt := prompt_text file_path file_content in
    let w' := {| fs := fs w;
                 trace := trace w ++ [Requested file_path prompt] |} in
    match service env (requests w) prompt with
    | Completion content => (inr content, w')
    | ConnectionFailed why | BadStatus why | Malformed why =>
        (inl {| raised_in := Requesting; exn_text := why |}, w')
    end.

(** *** Orchestrator *)

(** A computation on the outside, run from [main]. *)
Definition outside {A} (c : M World A) : M MainState A :=
  fun st =>
    let (r, w) := c (world st) in
    (r, {| world := w; file_docs := file_docs st;
           file_references := file_references st |}).

(** [file_docs[file_path] = doc_text] *)
Definition set_file_docs (file_path : string) (doc_text : json)
  : M MainState unit :=
  fun st =>
    (inr tt, {| world := world st;
                file_docs := PyDict.setitem (file_docs st) file_path doc_text;
                file_references := file_references st |}).

(** [file_references[file_path] = refs] *)
Definition set_file_references (file_path : string) (refs : list string)
  : M MainState unit :=
  fun st =>
    (inr tt, {| world := world st;
                file_docs := file_docs st;
                file_references :=
                  PyDict.setitem (file_references st) file_path refs |}).

(** The block under [try]. *)
Definition try_block (file_path : string) : M MainState unit :=
  content ← outside (read_file_content file_path);
  outside (print (MsgRead file_path)) ;;
  doc_text ← outside (generate_documentation_with_openai file_path content);
  outside (print (MsgGenerated file_path)) ;;
  set_file_docs file_path doc_text ;;
  let refs := find_references_in_content file_path content in
  set_file_references file_path refs ;;
  outside (print (MsgFound (length refs) file_path)) ;;
  outside (save_file_in_same_directory file_path doc_text "_doc.txt") ;;
  ret tt.

(** The state in which a turn of the loop enters its [try]. *)
Definition at_try (st : MainState) (file_path : string) : MainState :=
  snd (outside (print (MsgProcessing file_path)) st).

(** One turn of the loop over the relevant files: [try] and [except]. *)
Definition process_file (st : MainState) (file_path : string) : MainState :=
  match try_block file_path (at_try st file_path) with
  | (inr _, st') => st'
  | (inl e, st') =>
      snd (outside (print (MsgFailed file_path (exn_text e))) st')
  end.

Definition process_files (relevant_files : list string) (st : MainState)
  : MainState :=
  fold_left process_file relevant_files st.

Definition is_relevant (f : string) : bool :=
  bool_decide (PyStr.lower (snd (OsPath.splitext f)) ∈ FILE_EXTENSIONS).

Definition relevant_files (all_files : list string) : list string :=
  List.filter is_relevant all_files.

Definition overview_path : string :=
  OsPath.join LOCAL_REPO_PATH OVERVIEW_FILENAME.

(** The frame of [main] before its first statement. *)
Definition main_start (w : World) : MainState :=
  {| world := w; file_docs := PyDict.empty; file_references := PyDict.empty |}.

(** The [for] loop, as one computation: the [except] clause lets no
    exception out. *)
Definition for_each_file (relevant : list string) : M MainState unit :=
  fun st => (inr tt, process_files relevant st).

Definition main : M MainState unit :=
  outside (print MsgTraversing) ;;
  let all_files := traverse_local_files LOCAL_REPO_PATH None in
  let relevant := relevant_files all_files in
  match relevant with
  | [] => outside (print MsgNoRelevant) ;; ret tt
  | _ :: _ =>
      outside (print (MsgTotal (length relevant))) ;;
      for_each_file relevant ;;
      outside (print MsgGenerating) ;;
      docs ← gets file_docs;
      refs ← gets file_references;
      overview_text ← returned (generate_overview_document docs refs);
      outside (write_file overview_path (JString overview_text)) ;;
      outside (print (MsgOverviewSaved overview_path)) ;;
      outside (print MsgAllDone) ;;
      ret tt
  end.

(** The state in which the loop of [main] starts. *)
Definition loop_start (w : World) : MainState :=
  let relevant := relevant_files (traverse_local_files LOCAL_REPO_PATH None) in
  snd ((outside (print MsgTraversing) ;;
        outside (print (MsgTotal (length relevant)))) (main_start w)).

(** The state in which [main] assembles the overview: after the loop. *)
Definition at_assembly (w : World) : MainState :=
  let relevant := relevant_files (traverse_local_files LOCAL_REPO_PATH None) in
  process_files relevant (loop_start w).

End Script.

(** ** Vocabulary of the properties *)

(** A frame with more lines. *)
Definition frame_add (fr : OverviewFrame) (ls : list string) : OverviewFrame :=
  {| ov_file_docs := ov_file_docs fr;
     ov_file_references := ov_file_references fr;
     ov_lines := ov_lines fr ++ ls |}.

(** What the turn of a path comes to, read off the two mappings: its
    outcome and the lines it adds, all of its section or, when it raises,
    the ones before the documentation. *)
Definition section_run (file_docs : PyDict.t json)
           (file_references : PyDict.t (list string)) (path : string)
  : (exn + unit) * list string :=
  match PyDict.get file_docs path with
  | None => (inl (key_error path), [])
  | Some (JString s) =>
      (inr tt,
       ["## " +:+ path; ""; "**Documentation**"; ""; PyStr.strip s; ""]
       ++ spec_refs_part file_references path)
  | Some v => (inl (no_strip_error v), ["## " +:+ path; ""; "**Documentation**"; ""])
  end.

Fixpoint sections_run (file_docs : PyDict.t json)
         (file_references : PyDict.t (list string)) (paths : list string)
  : (exn + unit) * list string :=
  match paths with
  | [] => (inr tt, [])
  | path :: rest =>
      match section_run file_docs file_references path with
      | (inr _, ls) =>
          (fst (sections_run file_docs file_references rest),
           ls ++ snd (sections_run file_docs file_references rest))
      | (inl e, ls) => (inl e, ls)
      end
  end.

(** Every value of a mapping is a text. *)
Definition all_text (d : PyDict.t json) : Prop :=
  Forall (fun kv => is_text (snd kv) = true) d.

(** A state of [main] with another outside. *)
Definition with_world (st : MainState) (w : World) : MainState :=
  {| world := w; file_docs := file_docs st;
     file_references := file_references st |}.

(** An outside with more events. *)
Definition add_events (w : World) (evs : list event) : World :=
  {| fs := fs w; trace := trace w ++ evs |}.

(** The events of one turn of the loop are about its file: a request for
    it, its documentation file opened or written, lines printed. *)
Definition file_event (f : string) (e : event) : Prop :=
  match e with
  | Print _ => True
  | Requested f' _ => f' = f
  | FileOpened path => path = doc_output_path f "_doc.txt"
  | FileWrite path _ => path = doc_output_path f "_doc.txt"
  end.



(** Every completion the service gives carries a text. *)
Definition service_gives_text (env : Env) : Prop :=
  forall n prompt content,
    service env n prompt = Completion content -> is_text content = true.

(** The request [main] sends for a relevant file, if the file can be read. *)
Definition request_for (w : World) (f : string) : option event :=
  (fun content => Requested f (prompt_text f content)) <$> fs w !! f.

(** The overview of a run that documented no file. *)
Definition bare_overview : string :=
  PyStr.join newline ["# Project Overview"; ""; overview_intro; ""].

(** The line that opens a turn of the loop, and the line that closes it:
    the writer's confirmation or the failure line of [except]. *)
Definition is_opening_line (e : event) : bool :=
  match e with Print (MsgProcessing _) => true | _ => false end.

Definition is_closing_line (e : event) : bool :=
  match e with
  | Print (MsgFileSaved _) | Print (MsgFailed _ _) => true
  | _ => false
  end.

(** ** Sample runs *)

(** A walk that finds four files, one of them off the allow-list.  The
    service refuses the first request and answers the later ones; the file
    system refuses to open the documentation file of [./run.sh]. *)
Definition sample_env : Env :=
  {| os_walk := fun _ => [("./", [], ["README.md"; "x.php"; "y.sql"; "run.sh"])];
     service := fun n _ =>
                  match n with
                  | O => BadStatus "500 Server Error"
                  | S _ => Completion (JString "  A page.  ")
                  end;
     makedirs_ok := fun _ => true;
     open_write_ok := fun path => negb (String.eqb path "./run_doc.txt");
     write_ok := fun _ => true;
     torn_write := fun _ _ => "";
     os_error_text := fun path => "[Errno 13] Permission denied: '" +:+ path +:+ "'" |}.

Definition sample_world : World :=
  {| fs := <["./x.php" := php_sample]>
             (<["./y.sql" := sql_sample]> (<["./run.sh" := "echo"]> ∅));
     trace := [] |}.

(** A walk that finds nothing on the allow-list: a file without extension,
    a hidden file whose name looks like an extension, a text file. *)
Definition idle_env : Env :=
  {| os_walk := fun _ => [("./", [], ["README"; ".php"; "notes.txt"])];
     service := fun _ _ => Completion (JString "unused");
     makedirs_ok := fun _ => true;
     open_write_ok := fun _ => true;
     write_ok := fun _ => true;
     torn_write := fun _ _ => "";
     os_error_text := fun _ => "unused" |}.

(** A service that is down: every request gets a server error. *)
Definition down_env : Env :=
  {| os_walk := fun _ => [("./", [], ["x.php"; "y.sql"])];
     service := fun _ _ => BadStatus "503 Service Unavailable";
     makedirs_ok := fun _ => true;
     open_write_ok := fun _ => true;
     write_ok := fun _ => true;
     torn_write := fun _ _ => "";
     os_error_text := fun _ => "unused" |}.

(** A service whose completions carry [null] as their content, and a file
    system that refuses nothing. *)
Definition null_env : Env :=
  {| os_walk := fun _ => [("./", [], ["x.php"])];
     service := fun _ _ => Completion JNull;
     makedirs_ok := fun _ => true;
     open_write_ok := fun _ => true;
     write_ok := fun _ => true;
     torn_write := fun _ _ => "";
     os_error_text := fun _ => "unused" |}.

(** A walk of two directories, the second inside the first. *)
Definition tree_env : Env :=
  {| os_walk := fun _ => [("./", ["db"], ["a.php"; "notes.md"]);
                          ("./db", [], ["seed.sql"])];
     service := fun _ _ => Completion (JString "unused");
     makedirs_ok := fun _ => true;
     open_write_ok := fun _ => true;
     write_ok := fun _ => true;
     torn_write := fun _ _ => "";
     os_error_text := fun _ => "unused" |}.

(** A world that already holds an overview. *)
Definition overviewed_world : World :=
  {| fs := <["./x.php" := php_sample]>
             (<["./PROJECT_OVERVIEW.md" := "an earlier overview"]> ∅);
     trace := [] |}.

(** Two docs mappings and two references mappings for the same overview:
    the texts differ in surrounding white space, a missing reference list
    stands for an empty one, and an entry for an undocumented path is there. *)
Definition padded_docs : PyDict.t string := [("b.php", "  B  "); ("a.sql", "A")].
Definition trimmed_docs : PyDict.t string := [("a.sql", " A"); ("b.php", "B")].
Definition sparse_refs : PyDict.t (list string) := [("b.php", ["x.php"])].
Definition dense_refs : PyDict.t (list string) :=
  [("zz.sh", ["never shown"]); ("a.sql", []); ("b.php", ["x.php"])].

(** The overview of [padded_docs] and [sparse_refs], character by
    character. *)
Definition padded_overview : string :=
"# Project Overview

This document provides a high-level summary of the codebase, including file-by-file documentation and references.

## a.sql

**Documentation**

A

## b.php

**Documentation**

B

**References / Includes**

- x.php
".

(** * Properties *)
(** ** Sample evaluations *)

Example splitext_plain : OsPath.splitext "src/seed.sql" = ("src/seed", ".sql").
Proof. reflexivity. Qed.

Example splitext_hidden : OsPath.splitext "dir/.php" = ("dir/.php", "").
Proof. reflexivity. Qed.

Example splitext_dotted_directory : OsPath.splitext "a.b/c" = ("a.b/c", "").
Proof. reflexivity. Qed.

Example splitext_last_dot : OsPath.splitext "./x.tar.GZ" = ("./x.tar", ".GZ").
Proof. reflexivity. Qed.

Example dirname_root : OsPath.dirname "/x.sh" = "/".
Proof. reflexivity. Qed.

Example dirname_slashes : OsPath.dirname "a//b.sh" = "a".
Proof. reflexivity. Qed.

Example dirname_bare : OsPath.dirname "x.sh" = "".
Proof. reflexivity. Qed.

Example overview_path_value : overview_path = "./PROJECT_OVERVIEW.md".
Proof. reflexivity. Qed.

Example doc_output_path_seed : doc_output_path "src/seed.sql" "_doc.txt" = "src/seed_doc.txt".
Proof. reflexivity. Qed.

Example strip_both : PyStr.strip "  a b  " = "a b".
Proof. reflexivity. Qed.

Example of_nat_12 : PyStr.of_nat 12 = "12".
Proof. reflexivity. Qed.

Example of_nat_0 : PyStr.of_nat 0 = "0".
Proof. reflexivity. Qed.

Example php_groups :
  Re.findall PHP_INCLUDE_PATTERN
    ("xx require 'a' include_once" +:+ dq +:+ "b'); include_once_once 'z'")
  = [["require"; ""; "a"]; ["include"; "_once"; "b"]].
Proof. vm_compute. reflexivity. Qed.

Example php_spans :
  map (fun m => (Re.m_start m, Re.m_end m))
      (Re.finditer PHP_INCLUDE_PATTERN "include 'a' require'b'")
  = [(0, 11); (12, 22)]%nat.
Proof. vm_compute. reflexivity. Qed.

Example sql_upper_case_extension :
  find_references_in_content "x.SQL" "\i a.sql; \i   b.sql" = ["a.sql"; "b.sql"].
Proof. vm_compute. reflexivity. Qed.

(** ** Strings *)

Section PyStr_facts.
Import PyStr.

Lemma app_cons (a : ascii) (s t : string) :
  String a s +:+ t = String a (s +:+ t).
Proof. reflexivity. Qed.

Lemma app_nil_l (t : string) : "" +:+ t = t.
Proof. reflexivity. Qed.

Lemma take_drop (n : nat) (s : string) : take n s +:+ drop n s = s.
Proof.
  revert n; induction s as [|c s IH]; intros [|n]; try reflexivity.
  cbn [take drop]. rewrite app_cons. f_equal. apply IH.
Qed.

Lemma length_drop (n : nat) (s : string) :
  String.length (drop n s) = (String.length s - n)%nat.
Proof.
  revert n; induction s as [|c s IH]; intros [|n]; try reflexivity.
  cbn [drop String.length]. rewrite IH. lia.
Qed.

Lemma drop_0 (s : string) : drop 0 s = s.
Proof. destruct s; reflexivity. Qed.

Lemma drop_step (n : nat) (s : string) (c : ascii) (s' : string) :
  drop n s = String c s' -> drop (S n) s = s'.
Proof.
  revert n; induction s as [|a s IH]; intros [|n] H; cbn [drop] in *;
    try discriminate.
  - injection H as _ ->. apply drop_0.
  - apply IH, H.
Qed.

Lemma last_char_cons (a : ascii) (t : string) :
  t <> "" -> last_char (String a t) = last_char t.
Proof. destruct t; [congruence | reflexivity]. Qed.

Lemma last_char_app (s t : string) :
  t <> "" -> last_char (s +:+ t) = last_char t.
Proof.
  intros Ht. induction s as [|a s IH]; [reflexivity|].
  rewrite app_cons, last_char_cons; [exact IH|].
  destruct s; [rewrite app_nil_l; exact Ht | rewrite app_cons; discriminate].
Qed.

Lemma last_char_lower (s : string) :
  last_char (lower s) = lower_char <$> last_char s.
Proof.
  induction s as [|a s IH]; [reflexivity|].
  destruct s as [|b s]; [reflexivity|].
  change (lower (String a (String b s)))
    with (String (lower_char a) (lower (String b s))).
  rewrite last_char_cons by (cbn [lower]; discriminate).
  rewrite IH. reflexivity.
Qed.
End PyStr_facts.

(** ** The matcher *)

Section Re_facts.
Import PyStr Re.

Lemma lit_rest_length (l s rest : string) :
  lit_rest l s = Some rest ->
  (String.length rest + String.length l = String.length s)%nat.
Proof.
  revert s; induction l as [|a l IH]; intros [|b s] H; cbn in H;
    try discriminate.
  - injection H as <-. cbn. lia.
  - injection H as <-. cbn. lia.
  - destruct (Ascii.eqb a b); [|discriminate].
    apply IH in H. cbn. lia.
Qed.

(** A match hands to its continuation a rest that is shorter than the
    text by at least [min_len]: the continuation that accepted is named. *)
Lemma rep_greedy_consumes p min s caps k res :
  rep_greedy p min s caps k = Some res ->
  exists s1, k s1 caps = Some res
             /\ (String.length s1 + min <= String.length s)%nat.
Proof.
  revert min; induction s as [|c s IH]; intros min H; cbn in H.
  - destruct min; [|discriminate]. exists ""; split; [exact H | cbn; lia].
  - destruct (p c).
    + destruct (rep_greedy p (Nat.pred min) s caps k) eqn:E.
      * injection H as <-. apply IH in E as (s1 & Hk & Hlen).
        exists s1; split; [exact Hk | cbn; lia].
      * destruct min; [|discriminate].
        exists (String c s); split; [exact H | lia].
    + destruct min; [|discriminate].
      exists (String c s); split; [exact H | lia].
Qed.

Lemma exec_consumes r : forall s caps k res,
  exec r s caps k = Some res ->
  exists s1 caps1, k s1 caps1 = Some res
                   /\ (String.length s1 + min_len r <= String.length s)%nat.
Proof.
  induction r as [l|p|r1 IH1 r2 IH2|r1 IH1 r2 IH2|r1 IH1|min p|n r1 IH1];
    intros s caps k res H; cbn [exec min_len] in *.
  - destruct (lit_rest l s) as [rest|] eqn:E; [|discriminate].
    apply lit_rest_length in E. exists rest, caps; split; [exact H | lia].
  - destruct s as [|c s]; [discriminate|].
    destruct (p c); [|discriminate].
    exists s, caps; split; [exact H | cbn; lia].
  - apply IH1 in H as (s1 & caps1 & H & Hlen1).
    apply IH2 in H as (s2 & caps2 & H & Hlen2).
    exists s2, caps2; split; [exact H | lia].
  - destruct (exec r1 s caps k) eqn:E.
    + injection H as <-. apply IH1 in E as (s1 & caps1 & Hk & Hlen).
      exists s1, caps1; split; [exact Hk | lia].
    + apply IH2 in H as (s1 & caps1 & Hk & Hlen).
      exists s1, caps1; split; [exact Hk | lia].
  - destruct (exec r1 s caps k) eqn:E.
    + injection H as <-. apply IH1 in E as (s1 & caps1 & Hk & Hlen).
      exists s1, caps1; split; [exact Hk | lia].
    + exists s, caps; split; [exact H | lia].
  - apply rep_greedy_consumes in H as (s1 & Hk & Hlen).
    exists s1, caps; split; [exact Hk | lia].
  - apply IH1 in H as (s1 & caps1 & Hk & Hlen).
    eexists s1, _; split; [exact Hk | lia].
Qed.

Lemma match_at_consumes r s caps rest :
  match_at r s = Some (caps, rest) ->
  (String.length rest + min_len r <= String.length s)%nat.
Proof.
  intros H. apply exec_consumes in H as (s1 & caps1 & Hk & Hlen).
  injection Hk as _ <-. exact Hlen.
Qed.

(** Neither pattern of the script matches the empty string. *)
Lemma pattern_consumes r s caps rest :
  r = PHP_INCLUDE_PATTERN \/ r = SQL_INCLUDE_PATTERN ->
  match_at r s = Some (caps, rest) ->
  (String.length rest < String.length s)%nat.
Proof.
  intros Hr H. apply match_at_consumes in H.
  destruct Hr as [-> | ->]; cbn in H; lia.
Qed.

Lemma found_from_back r content from ms :
  match_at r (drop from content) = None ->
  found_from r content (S from) ms ->
  found_from r content from ms.
Proof.
  intros Hnone H. inversion H as [? Hall | ? i caps rest ms' Hi Hbefore Hm Hrest];
    subst.
  - apply found_none. intros i Hi.
    destruct (decide (i = from)) as [-> | Hne]; [exact Hnone|].
    apply Hall. lia.
  - eapply found_cons; [lia | | exact Hm | exact Hrest].
    intros j Hj. destruct (decide (j = from)) as [-> | Hne]; [exact Hnone|].
    apply Hbefore. lia.
Qed.

(** The scan computes the matches in order of appearance. *)
Lemma scan_found r content : forall s pos skip,
  drop pos content = s ->
  (pos <= String.length content)%nat ->
  found_from r content (pos + skip) (scan r s pos skip).
Proof.
  induction s as [|c s IH]; intros pos skip Hs Hpos.
  - assert (Hlen : String.length content = pos).
    { pose proof (length_drop pos content) as L. rewrite Hs in L. cbn in L. lia. }
    destruct skip as [|k]; cbn [scan].
    + rewrite Nat.add_0_r.
      destruct (match_at r "") as [[caps rest]|] eqn:E.
      * rewrite <- Hs in E.
        pose proof (found_cons r content pos pos caps rest [] ltac:(lia)
                      ltac:(intros; lia) E) as F.
        rewrite Hs in F. apply F.
        apply found_none. intros i Hi. lia.
      * apply found_none. intros i Hi.
        replace i with pos by lia. rewrite Hs. exact E.
    + apply found_none. intros i Hi. lia.
  - assert (Hlen : (S pos <= String.length content)%nat).
    { pose proof (length_drop pos content) as L. rewrite Hs in L. cbn in L. lia. }
    pose proof (drop_step _ _ _ _ Hs) as Hs'.
    destruct skip as [|k]; cbn [scan].
    + rewrite Nat.add_0_r.
      destruct (match_at r (String c s)) as [[caps rest]|] eqn:E.
      * rewrite <- Hs in E.
        pose proof (found_cons r content pos pos caps rest
                      (scan r s (S pos)
                         (Nat.pred (String.length (String c s) - String.length rest)))
                      ltac:(lia) ltac:(intros; lia) E) as F.
        rewrite Hs in F. apply F.
        specialize (IH (S pos)
                       (Nat.pred (String.length (String c s) - String.length rest))
                       Hs' Hlen).
        replace (pos + Nat.max 1 (String.length (String c s) - String.length rest))%nat
          with (S pos + Nat.pred (String.length (String c s) - String.length rest))%nat
          by lia.
        exact IH.
      * apply found_from_back; [rewrite Hs; exact E|].
        specialize (IH (S pos) 0%nat Hs' Hlen).
        rewrite Nat.add_0_r in IH. exact IH.
    + replace (pos + S k)%nat with (S pos + k)%nat by lia.
      apply IH; assumption.
Qed.

Lemma finditer_found r content :
  found_from r content 0 (finditer r content).
Proof.
  apply (scan_found r content content 0 0); [apply drop_0 | lia].
Qed.

(** The matches in order of appearance are determined by the text. *)
Lemma found_from_unique r content from ms1 :
  found_from r content from ms1 ->
  forall ms2, found_from r content from ms2 -> ms1 = ms2.
Proof.
  induction 1 as [from Hall | from i caps rest ms Hi Hbefore Hm Hrest IH];
    intros ms2 H2;
    inversion H2 as [? Hall2 | ? i2 caps2 rest2 ms' Hi2 Hbefore2 Hm2 Hrest2];
    subst.
  - reflexivity.
  - rewrite Hall in Hm2 by lia. discriminate.
  - rewrite Hall2 in Hm by lia. discriminate.
  - assert (i = i2) as <-.
    { destruct (Nat.lt_trichotomy i i2) as [Hlt | [Heq | Hgt]]; [|exact Heq|].
      - rewrite Hbefore2 in Hm by lia. discriminate.
      - rewrite Hbefore in Hm2 by lia. discriminate. }
    rewrite Hm in Hm2. injection Hm2 as <- <-.
    f_equal. apply IH, Hrest2.
Qed.
End Re_facts.

(** ** Reference Scanner *)

Lemma scanner_php_branch (file_path content : string) :
  PyStr.lower (snd (OsPath.splitext file_path)) = ".php" ->
  find_references_in_content file_path content
  = map (fun m => Re.group m 3) (Re.finditer PHP_INCLUDE_PATTERN content).
Proof.
  intros Hext. unfold find_references_in_content. rewrite Hext.
  cbn [String.eqb Ascii.eqb Bool.eqb]. cbn [app].
  unfold Re.findall. rewrite map_map. reflexivity.
Qed.

Lemma scanner_sql_branch (file_path content : string) :
  PyStr.lower (snd (OsPath.splitext file_path)) = ".sql" ->
  find_references_in_content file_path content
  = map (fun m => PyStr.strip (Re.group m 1))
        (Re.finditer SQL_INCLUDE_PATTERN content).
Proof.
  intros Hext. unfold find_references_in_content. rewrite Hext.
  cbn [String.eqb Ascii.eqb Bool.eqb]. cbn [app].
  unfold Re.findall. rewrite map_map. reflexivity.
Qed.

(** C5: for a path whose lower-cased extension is [.php], the scanner
    returns the third group of every match of the include pattern, the
    matches taken in order of appearance (no match is dropped or merged, so
    a reference that occurs twice is listed twice); on the text
    [include("a/b.php"); require_once('c.php');] that is
    [a/b.php] then [c.php]. *)
Theorem scanner_php_third_groups (file_path content : string) :
  PyStr.lower (snd (OsPath.splitext file_path)) = ".php" ->
  (exists ms,
     Re.found_from PHP_INCLUDE_PATTERN content 0 ms
     /\ find_references_in_content file_path content
        = map (fun m => Re.group m 3) ms)
  /\ find_references_in_content file_path php_sample = ["a/b.php"; "c.php"].
Proof.
  intros Hext. split.
  - exists (Re.finditer PHP_INCLUDE_PATTERN content). split.
    + apply finditer_found.
    + apply scanner_php_branch, Hext.
  - rewrite (scanner_php_branch _ _ Hext). vm_compute. reflexivity.
Qed.

Lemma scanner_php_third_groups_witness :
  PyStr.lower (snd (OsPath.splitext "lib/Index.PHP")) = ".php"
  /\ find_references_in_content "lib/Index.PHP" php_sample = ["a/b.php"; "c.php"].
Proof.
  assert (H : PyStr.lower (snd (OsPath.splitext "lib/Index.PHP")) = ".php")
    by reflexivity.
  split; [exact H | exact (proj2 (scanner_php_third_groups "lib/Index.PHP" "" H))].
Defined.

(** C6: for a path whose lower-cased extension is [.sql], the scanner
    returns the token captured by every match of the include pattern,
    stripped of surrounding white space, the matches taken in order of
    appearance; on the text [\i seed_data.sql;] that is [seed_data.sql]. *)
Theorem scanner_sql_tokens (file_path content : string) :
  PyStr.lower (snd (OsPath.splitext file_path)) = ".sql" ->
  (exists ms,
     Re.found_from SQL_INCLUDE_PATTERN content 0 ms
     /\ find_references_in_content file_path content
        = map (fun m => PyStr.strip (Re.group m 1)) ms)
  /\ find_references_in_content file_path sql_sample = ["seed_data.sql"].
Proof.
  intros Hext. split.
  - exists (Re.finditer SQL_INCLUDE_PATTERN content). split.
    + apply finditer_found.
    + apply scanner_sql_branch, Hext.
  - rewrite (scanner_sql_branch _ _ Hext). vm_compute. reflexivity.
Qed.

Lemma scanner_sql_tokens_witness :
  PyStr.lower (snd (OsPath.splitext "db/seed.Sql")) = ".sql"
  /\ find_references_in_content "db/seed.Sql" sql_sample = ["seed_data.sql"].
Proof.
  assert (H : PyStr.lower (snd (OsPath.splitext "db/seed.Sql")) = ".sql")
    by reflexivity.
  split; [exact H | exact (proj2 (scanner_sql_tokens "db/seed.Sql" "" H))].
Defined.

(** C7: for a path whose lower-cased extension is neither [.php] nor
    [.sql], a [.sh] file for one, the scanner returns the empty list
    whatever the content. *)
Theorem scanner_other_extension (file_path content : string) :
  PyStr.lower (snd (OsPath.splitext file_path)) <> ".php" ->
  PyStr.lower (snd (OsPath.splitext file_path)) <> ".sql" ->
  find_references_in_content file_path content = [].
Proof.
  intros Hphp Hsql. unfold find_references_in_content.
  apply String.eqb_neq in Hphp, Hsql. rewrite Hphp, Hsql. reflexivity.
Qed.

Lemma scanner_other_extension_witness :
  PyStr.lower (snd (OsPath.splitext "bin/deploy.sh")) <> ".php"
  /\ PyStr.lower (snd (OsPath.splitext "bin/deploy.sh")) <> ".sql"
  /\ find_references_in_content "bin/deploy.sh" php_sample = [].
Proof.
  assert (Hphp : PyStr.lower (snd (OsPath.splitext "bin/deploy.sh")) <> ".php")
    by (vm_compute; discriminate).
  assert (Hsql : PyStr.lower (snd (OsPath.splitext "bin/deploy.sh")) <> ".sql")
    by (vm_compute; discriminate).
  split; [exact Hphp|]. split; [exact Hsql|].
  exact (scanner_other_extension "bin/deploy.sh" php_sample Hphp Hsql).
Defined.

(** Every [.sh] file is such a path. *)
Lemma scanner_sh (file_path content : string) :
  PyStr.lower (snd (OsPath.splitext file_path)) = ".sh" ->
  find_references_in_content file_path content = [].
Proof.
  intros Hext. unfold find_references_in_content. rewrite Hext. reflexivity.
Qed.

(** ** Python [dict] *)

Section PyDict_facts.
Context {V : Type}.
Implicit Types (d : PyDict.t V) (k : string) (v : V).

Lemma PyDict_get_key d k : k ∈ PyDict.keys d <-> is_Some (PyDict.get d k).
Proof.
  induction d as [|[k' v'] d IH]; cbn.
  - split; [intros H; inversion H | intros [? H]; discriminate].
  - destruct (String.eqb_spec k' k) as [-> | Hne].
    + split; [eauto | intros _; apply list_elem_of_here].
    + rewrite <- IH. rewrite elem_of_cons.
      split; [intros [-> | Hin]; [congruence | exact Hin] | auto].
Qed.

Lemma PyDict_get_setitem_eq d k v : PyDict.get (PyDict.setitem d k v) k = Some v.
Proof.
  induction d as [|[k' v'] d IH]; cbn.
  - rewrite String.eqb_refl. reflexivity.
  - destruct (String.eqb_spec k' k) as [-> | Hne]; cbn.
    + rewrite String.eqb_refl. reflexivity.
    + apply String.eqb_neq in Hne. rewrite Hne. exact IH.
Qed.

Lemma PyDict_get_setitem_ne d k k0 v :
  k <> k0 -> PyDict.get (PyDict.setitem d k v) k0 = PyDict.get d k0.
Proof.
  intros Hne. apply String.eqb_neq in Hne.
  induction d as [|[k' v'] d IH]; cbn.
  - rewrite Hne. reflexivity.
  - destruct (String.eqb_spec k' k) as [-> | Hne']; cbn.
    + rewrite Hne. reflexivity.
    + rewrite IH. reflexivity.
Qed.

Lemma PyDict_keys_setitem d k v k0 :
  k0 ∈ PyDict.keys (PyDict.setitem d k v) <-> k0 = k \/ k0 ∈ PyDict.keys d.
Proof.
  rewrite !PyDict_get_key.
  destruct (decide (k0 = k)) as [-> | Hne].
  - rewrite PyDict_get_setitem_eq. split; [auto | eauto].
  - rewrite PyDict_get_setitem_ne by congruence.
    split; [auto | intros [? | ?]; [contradiction | assumption]].
Qed.

Lemma PyDict_setitem_wf d k v : PyDict.wf d -> PyDict.wf (PyDict.setitem d k v).
Proof.
  unfold PyDict.wf. induction d as [|[k' v'] d IH]; cbn; intros Hwf.
  - apply NoDup_singleton.
  - apply NoDup_cons in Hwf as [Hnotin Hwf].
    destruct (String.eqb_spec k' k) as [-> | Hne]; cbn.
    + apply NoDup_cons; split; assumption.
    + apply NoDup_cons; split; [|apply IH, Hwf].
      intros Hin. apply PyDict_keys_setitem in Hin as [-> | Hin]; auto.
Qed.

Lemma PyDict_same_entries_keys d1 d2 :
  PyDict.wf d1 -> PyDict.wf d2 -> PyDict.same_entries d1 d2 ->
  PyDict.keys d1 ≡ₚ PyDict.keys d2.
Proof.
  intros Hwf1 Hwf2 Hsame. apply NoDup_Permutation; [assumption..|].
  intros k. rewrite !PyDict_get_key, (Hsame k). reflexivity.
Qed.
End PyDict_facts.
(** ** Overview Assembler *)

Lemma sorted_Permutation (l : list string) : sorted l ≡ₚ l.
Proof. apply merge_sort_Permutation. Qed.

Lemma sorted_StronglySorted (l : list string) : StronglySorted String.le (sorted l).
Proof. apply StronglySorted_merge_sort; apply _. Qed.

Lemma sorted_of_Permutation (l1 l2 : list string) :
  l1 ≡ₚ l2 -> sorted l1 = sorted l2.
Proof.
  intros Hperm.
  apply (StronglySorted_unique String.le); try apply sorted_StronglySorted.
  rewrite !sorted_Permutation. exact Hperm.
Qed.

Lemma text_values_keys (d : PyDict.t string) :
  PyDict.keys (text_values d) = PyDict.keys d.
Proof.
  unfold PyDict.keys, text_values. rewrite List.map_map. reflexivity.
Qed.

Lemma text_values_get (d : PyDict.t string) (k : string) :
  PyDict.get (text_values d) k = JString <$> PyDict.get d k.
Proof.
  induction d as [|[k' s] d IH]; [reflexivity|].
  cbn [text_values map PyDict.get fst snd].
  destruct (String.eqb k' k); [reflexivity | exact IH].
Qed.

Lemma all_text_values (d : PyDict.t json) :
  all_text d -> exists d0, d = text_values d0.
Proof.
  induction 1 as [|[k v] d Hv _ (d0 & ->)]; [exists []; reflexivity|].
  destruct v; try discriminate. exists ((k, s) :: d0). reflexivity.
Qed.

Lemma all_text_setitem (d : PyDict.t json) (k : string) (v : json) :
  is_text v = true -> all_text d -> all_text (PyDict.setitem d k v).
Proof.
  intros Hv. induction 1 as [|[k' v'] d Hv' Hd IH]; cbn [PyDict.setitem].
  - repeat constructor. exact Hv.
  - destruct (String.eqb k' k); constructor; assumption.
Qed.

Lemma bullets_append (refs : list string) (fr : OverviewFrame) :
  for_each refs (fun r => lines_append ("- " +:+ r)) fr
  = (inr tt, frame_add fr (map (fun r => "- " +:+ r) refs)).
Proof.
  revert fr; induction refs as [|r refs IH]; intros fr.
  - unfold frame_add. cbn. rewrite app_nil_r. destruct fr; reflexivity.
  - cbn [for_each map]. unfold mbind, M_bind, bind, lines_append at 1.
    rewrite IH. unfold frame_add. cbn [ov_file_docs ov_file_references ov_lines].
    rewrite <- app_assoc. reflexivity.
Qed.

Lemma overview_loop_body_section (path : string) (fr : OverviewFrame) :
  overview_loop_body path fr
  = (fst (section_run (ov_file_docs fr) (ov_file_references fr) path),
     frame_add fr (snd (section_run (ov_file_docs fr) (ov_file_references fr) path))).
Proof.
  unfold overview_loop_body, section_run, getitem, strip_method, spec_refs_part,
    mbind, M_bind, bind, gets, lines_append, raise, mret, M_ret, ret, frame_add.
  cbn [ov_file_docs ov_file_references ov_lines].
  destruct (PyDict.get (ov_file_docs fr) path) as [v|]; cbn [fst snd].
  - destruct v; cbn [fst snd ov_file_docs ov_file_references ov_lines];
      try (rewrite <- !app_assoc; reflexivity).
    destruct (default [] (PyDict.get (ov_file_references fr) path)) as [|r refs].
    + cbn [fst snd]. rewrite app_nil_r, <- !app_assoc. reflexivity.
    + rewrite bullets_append. unfold frame_add.
      cbn [fst snd ov_file_docs ov_file_references ov_lines].
      rewrite <- !app_assoc. reflexivity.
  - rewrite app_nil_r. destruct fr; reflexivity.
Qed.

Lemma overview_loop_sections (paths : list string) (fr : OverviewFrame) :
  for_each paths overview_loop_body fr
  = (fst (sections_run (ov_file_docs fr) (ov_file_references fr) paths),
     frame_add fr (snd (sections_run (ov_file_docs fr) (ov_file_references fr)
                                     paths))).
Proof.
  revert fr; induction paths as [|path paths IH]; intros fr.
  - unfold frame_add. cbn. rewrite app_nil_r. destruct fr; reflexivity.
  - cbn [for_each sections_run]. unfold mbind, M_bind, bind.
    rewrite overview_loop_body_section.
    destruct (section_run (ov_file_docs fr) (ov_file_references fr) path)
      as [[e|[]] ls]; cbn [fst snd]; [reflexivity|].
    rewrite IH. unfold frame_add.
    cbn [fst snd ov_file_docs ov_file_references ov_lines].
    rewrite <- app_assoc. reflexivity.
Qed.

(** The run of the assembler: the two mappings as they were given, and the
    header followed by the lines of the sections. *)
Lemma overview_run_frame (file_docs : PyDict.t json)
      (file_references : PyDict.t (list string)) :
  overview_run file_docs file_references
  = (fst (sections_run file_docs file_references (section_paths file_docs)),
     {| ov_file_docs := file_docs;
        ov_file_references := file_references;
        ov_lines := spec_header
                    ++ snd (sections_run file_docs file_references
                                         (section_paths file_docs)) |}).
Proof.
  unfold overview_run, overview_body, mbind, M_bind, bind, gets, lines_append.
  cbn [ov_file_docs ov_file_references ov_lines app].
  rewrite overview_loop_sections. reflexivity.
Qed.

Lemma generate_overview_document_sections (file_docs : PyDict.t json)
      (file_references : PyDict.t (list string)) :
  generate_overview_document file_docs file_references
  = match fst (sections_run file_docs file_references (section_paths file_docs)) with
    | inr _ =>
        inr (PyStr.join newline
               (spec_header ++ snd (sections_run file_docs file_references
                                                 (section_paths file_docs))))
    | inl e => inl e
    end.
Proof.
  unfold generate_overview_document. rewrite overview_run_frame.
  destruct (fst _); reflexivity.
Qed.

Lemma sections_run_ext (d d' : PyDict.t json) (r r' : PyDict.t (list string))
      (paths : list string) :
  (forall path, path ∈ paths ->
                PyDict.get d path = PyDict.get d' path
                /\ default [] (PyDict.get r path) = default [] (PyDict.get r' path)) ->
  sections_run d r paths = sections_run d' r' paths.
Proof.
  induction paths as [|path paths IH]; intros Hsame; [reflexivity|].
  cbn [sections_run]. destruct (Hsame path) as [Hd Hr]; [left|].
  unfold section_run, spec_refs_part. rewrite Hd, Hr.
  rewrite IH by (intros p Hp; apply Hsame; right; exact Hp). reflexivity.
Qed.

Lemma sections_run_texts (d : PyDict.t string) (r : PyDict.t (list string))
      (paths : list string) :
  (forall path, path ∈ paths -> path ∈ PyDict.keys d) ->
  sections_run (text_values d) r paths
  = (inr tt, concat (map (spec_section d r) paths)).
Proof.
  induction paths as [|path paths IH]; intros Hkeys; [reflexivity|].
  cbn [sections_run map concat].
  rewrite IH by (intros p Hp; apply Hkeys; right; exact Hp).
  unfold section_run. rewrite text_values_get.
  destruct (proj1 (PyDict_get_key d path) (Hkeys path ltac:(left))) as [s Hs].
  rewrite Hs. cbn [fmap option_fmap option_map fst snd].
  unfold spec_section, spec_doc_part. rewrite Hs. cbn [default from_option].
  rewrite <- !app_assoc. reflexivity.
Qed.

(** On a docs mapping of texts the assembler raises nothing and returns
    the overview the specification words. *)
Lemma generate_overview_document_texts (d : PyDict.t string)
      (r : PyDict.t (list string)) :
  generate_overview_document (text_values d) r
  = inr (PyStr.join newline
           (spec_header ++ concat (map (spec_section d r) (section_paths d)))).
Proof.
  rewrite generate_overview_document_sections.
  unfold section_paths. rewrite text_values_keys. fold (section_paths d).
  rewrite sections_run_texts; [reflexivity|].
  intros path Hpath. unfold section_paths in Hpath.
  rewrite sorted_Permutation in Hpath. exact Hpath.
Qed.

(** ** Trimming *)

Lemma lstrip_split (s : string) :
  exists l, s = l +:+ PyStr.lstrip s
            /\ str_all PyStr.isspace l = true
            /\ forall c, String.get 0 (PyStr.lstrip s) = Some c ->
                         PyStr.isspace c = false.
Proof.
  induction s as [|a s (l & Hs & Hl & Hfirst)].
  - exists "". repeat split. intros c Hc. discriminate.
  - cbn [PyStr.lstrip]. destruct (PyStr.isspace a) eqn:Ha.
    + exists (String a l). rewrite app_cons, <- Hs. cbn [str_all].
      rewrite Ha, Hl. repeat split. exact Hfirst.
    + exists "". repeat split. intros c Hc. cbn in Hc. congruence.
Qed.

Lemma rstrip_split (s : string) :
  exists r, s = PyStr.rstrip s +:+ r
            /\ str_all PyStr.isspace r = true
            /\ forall c, PyStr.last_char (PyStr.rstrip s) = Some c ->
                         PyStr.isspace c = false.
Proof.
  induction s as [|a s (r & Hs & Hr & Hlast)].
  - exists "". repeat split. intros c Hc. discriminate.
  - cbn [PyStr.rstrip]. destruct (PyStr.rstrip s) as [|b t] eqn:Hstrip.
    + rewrite app_nil_l in Hs. subst r.
      destruct (PyStr.isspace a) eqn:Ha.
      * exists (String a s). cbn [str_all]. rewrite Ha, Hr. repeat split.
        intros c Hc. discriminate.
      * exists s. repeat split; [exact Hr|].
        intros c Hc. cbn in Hc. congruence.
    + exists r. rewrite app_cons, <- Hs. repeat split; [exact Hr|].
      intros c Hc. apply Hlast. exact Hc.
Qed.

Lemma rstrip_first (s : string) (c : ascii) :
  String.get 0 (PyStr.rstrip s) = Some c -> String.get 0 s = Some c.
Proof.
  destruct s as [|a s]; [discriminate|]. cbn [PyStr.rstrip].
  destruct (PyStr.rstrip s); [destruct (PyStr.isspace a)|]; cbn; congruence.
Qed.

(** [str.strip] trims, in the sense of [trimmed_of]. *)
Lemma strip_trimmed (s : string) : trimmed_of s (PyStr.strip s).
Proof.
  unfold PyStr.strip.
  destruct (lstrip_split s) as (l & Hs & Hl & Hfirst).
  destruct (rstrip_split (PyStr.lstrip s)) as (r & Hu & Hr & Hlast).
  split; [|split].
  - exists l, r. rewrite <- Hu. auto.
  - intros c Hc. apply Hfirst, rstrip_first, Hc.
  - exact Hlast.
Qed.

(** C8: the assembler leaves the two mappings it is given as they were, so
    a second call on them returns the same result as the first; and the
    result depends on the entries of the mappings only, not on the order in
    which they were inserted. *)
Theorem overview_deterministic (file_docs file_docs' : PyDict.t json)
        (file_references file_references' : PyDict.t (list string)) :
  PyDict.wf file_docs -> PyDict.wf file_docs' ->
  PyDict.same_entries file_docs file_docs' ->
  PyDict.same_entries file_references file_references' ->
  let fr := snd (overview_run file_docs file_references) in
  ov_file_docs fr = file_docs
  /\ ov_file_references fr = file_references
  /\ generate_overview_document (ov_file_docs fr) (ov_file_references fr)
     = generate_overview_document file_docs file_references
  /\ generate_overview_document file_docs' file_references'
     = generate_overview_document file_docs file_references.
Proof.
  intros Hwf Hwf' Hd Hr fr. subst fr.
  rewrite overview_run_frame. cbn [snd ov_file_docs ov_file_references].
  repeat split.
  rewrite !generate_overview_document_sections.
  unfold section_paths.
  rewrite (sorted_of_Permutation (PyDict.keys file_docs') (PyDict.keys file_docs))
    by (symmetry; apply PyDict_same_entries_keys; assumption).
  rewrite (sections_run_ext file_docs' file_docs file_references' file_references);
    [reflexivity|].
  intros path _. rewrite (Hd path), (Hr path). split; reflexivity.
Qed.

Lemma overview_deterministic_witness :
  let d := text_values [("b.php", "B"); ("a.sql", "A")] in
  let d' := text_values [("a.sql", "A"); ("b.php", "B")] in
  let r := [("b.php", ["x.php"])] in
  PyDict.wf d /\ PyDict.wf d'
  /\ PyDict.same_entries d d' /\ PyDict.same_entries r r
  /\ generate_overview_document d' r = generate_overview_document d r.
Proof.
  intros d d' r.
  assert (Hwf : PyDict.wf d) by (apply (bool_decide_unpack _); vm_compute; exact I).
  assert (Hwf' : PyDict.wf d') by (apply (bool_decide_unpack _); vm_compute; exact I).
  assert (Hd : PyDict.same_entries d d').
  { intros k. unfold d, d'. cbn [text_values map fst snd PyDict.get].
    destruct (String.eqb_spec "b.php" k) as [E1 | _];
      destruct (String.eqb_spec "a.sql" k) as [E2 | _];
      try reflexivity.
    rewrite <- E1 in E2. discriminate E2. }
  assert (Hr : PyDict.same_entries r r) by (intros k; reflexivity).
  split; [exact Hwf|]. split; [exact Hwf'|]. split; [exact Hd|].
  split; [exact Hr|].
  exact (proj2 (proj2 (proj2 (overview_deterministic d d' r r Hwf Hwf' Hd Hr)))).
Defined.

(** C9: on a docs mapping of texts the overview is the title and the
    intro, then one section per key of the docs mapping, the keys in
    lexicographic order; a section is the path as heading, the trimmed
    documentation under its subheading, and the bulleted references under
    theirs exactly when the path has a reference list that is not empty.
    Trimmed means: the text without a longest run of white space at either
    end, so what is shown neither starts nor ends with white space.  On
    the docs [padded_docs] and the references [sparse_refs] the overview
    is [padded_overview], character by character. *)
Theorem overview_layout (file_docs : PyDict.t string)
        (file_references : PyDict.t (list string)) :
  generate_overview_document (text_values file_docs) file_references
  = inr (PyStr.join newline
           (spec_header
            ++ concat (map (spec_section file_docs file_references)
                           (section_paths file_docs))))
  /\ section_paths file_docs ≡ₚ PyDict.keys file_docs
  /\ StronglySorted String.le (section_paths file_docs)
  /\ (forall path,
       let refs := default [] (PyDict.get file_references path) in
       let doc_text := default "" (PyDict.get file_docs path) in
       spec_section file_docs file_references path
       = ["## " +:+ path; ""; "**Documentation**"; "";
          PyStr.strip doc_text; ""]
         ++ (if decide (refs = []) then []
             else ["**References / Includes**"; ""]
                  ++ map (fun r => "- " +:+ r) refs ++ [""])
       /\ trimmed_of doc_text (PyStr.strip doc_text))
  /\ generate_overview_document (text_values padded_docs) sparse_refs
     = inr padded_overview.
Proof.
  split; [|split; [|split; [|split]]].
  - apply generate_overview_document_texts.
  - apply sorted_Permutation.
  - apply sorted_StronglySorted.
  - intros path refs doc_text. subst refs doc_text. split.
    + unfold spec_section, spec_doc_part, spec_refs_part.
      destruct (default [] (PyDict.get file_references path)); reflexivity.
    + apply strip_trimmed.
  - vm_compute. reflexivity.
Qed.

(** ** Orchestrator *)

Section Script_facts.
Context (env : Env).

(** The writer, case by case: no directory to make; the directory, then
    the file refused; the file opened and the content no text, the text
    refused, the text written. *)
Lemma save_file_cases (original_file_path : string) (content : json)
      (suffix : string) (w : World) :
  let base_dir := OsPath.dirname original_file_path in
  let out := doc_output_path original_file_path suffix in
  save_file_in_same_directory env original_file_path content suffix w =
  if String.eqb base_dir ""
  then (inl {| raised_in := Writing;
               exn_text := "[Errno 2] No such file or directory: ''" |}, w)
  else if negb (makedirs_ok env base_dir)
  then (inl {| raised_in := Writing; exn_text := os_error_text env base_dir |}, w)
  else if negb (open_write_ok env out)
  then (inl {| raised_in := Writing; exn_text := os_error_text env out |}, w)
  else
    match content with
    | JString text =>
        if write_ok env out
        then (inr out,
              {| fs := <[out := text]> (fs w);
                 trace := trace w ++ [FileOpened out; FileWrite out text;
                                      Print (MsgFileSaved out)] |})
        else (inl {| raised_in := Writing; exn_text := os_error_text env out |},
              {| fs := <[out := torn_write env out text]> (fs w);
                 trace := trace w ++ [FileOpened out] |})
    | _ =>
        (inl {| raised_in := Writing;
                exn_text := "write() argument must be str, not "
                              +:+ type_name content |},
         {| fs := <[out := ""]> (fs w); trace := trace w ++ [FileOpened out] |})
    end.
Proof.
  cbv zeta.
  unfold save_file_in_same_directory, makedirs, write_file, open_write,
    file_write, mbind, M_bind, bind, raise, mret, M_ret, ret.
  destruct (String.eqb (OsPath.dirname original_file_path) ""); [reflexivity|].
  destruct (makedirs_ok env _); cbn [negb]; [|reflexivity].
  destruct (open_write_ok env _); cbn [negb]; [|reflexivity].
  destruct content; try reflexivity.
  destruct (write_ok env _); unfold print, emit; cbn [fs trace];
    rewrite insert_insert_eq, <- ?app_assoc; reflexivity.
Qed.

(** The block under [try], case by case: up to the call of the writer,
    whose outcome is the outcome of the block. *)
Lemma try_block_cases (file_path : string) (st : MainState) :
  let w := world st in
  try_block env file_path st =
  match fs w !! file_path with
  | None =>
      (inl {| raised_in := Reading; exn_text := os_error_text env file_path |}, st)
  | Some content =>
      let prompt := prompt_text file_path content in
      let w1 := add_events w [Print (MsgRead file_path)] in
      let sent := [Print (MsgRead file_path); Requested file_path prompt] in
      match service env (requests w1) prompt with
      | Completion doc_text =>
          let refs := find_references_in_content file_path content in
          let evs := sent ++ [Print (MsgGenerated file_path);
                              Print (MsgFound (length refs) file_path)] in
          let st' :=
            {| world := add_events w evs;
               file_docs := PyDict.setitem (file_docs st) file_path doc_text;
               file_references :=
                 PyDict.setitem (file_references st) file_path refs |} in
          let saved :=
            save_file_in_same_directory env file_path doc_text "_doc.txt"
                                        (add_events w evs) in
          (match fst saved with inr _ => inr tt | inl e => inl e end,
           with_world st' (snd saved))
      | ConnectionFailed why | BadStatus why | Malformed why =>
          (inl {| raised_in := Requesting; exn_text := why |},
           with_world st (add_events w sent))
      end
  end.
Proof.
  destruct st as [[fs0 tr0] docs refs]. cbn [world].
  unfold try_block, mbind, M_bind, bind, outside, read_file_content.
  cbn [world fs trace file_docs file_references].
  destruct (fs0 !! file_path) as [content|]; [|reflexivity].
  unfold print, emit, generate_documentation_with_openai, add_events, with_world.
  cbn [world fs trace file_docs file_references].
  destruct (service env _ _);
    try (cbn [app]; rewrite <- !app_assoc; reflexivity).
  unfold set_file_docs, set_file_references, mbind, M_bind, bind, mret, M_ret, ret.
  cbn [world fs trace file_docs file_references app].
  rewrite <- !app_assoc. cbn [app].
  destruct (save_file_in_same_directory env file_path content0 "_doc.txt" _)
    as [[e|out] w']; reflexivity.
Qed.

Lemma at_try_eq (st : MainState) (f : string) :
  at_try st f = with_world st (add_events (world st) [Print (MsgProcessing f)]).
Proof. reflexivity. Qed.

Lemma except_eq (st : MainState) (f e : string) :
  snd (outside (print (MsgFailed f e)) st)
  = with_world st (add_events (world st) [Print (MsgFailed f e)]).
Proof. reflexivity. Qed.

Ltac split_try :=
  rewrite try_block_cases; cbv zeta;
  destruct (fs _ !! _);
  [destruct (service _ _ _) as [?|?|?|doc_text];
   [..| rewrite save_file_cases; cbv zeta;
        destruct (String.eqb (OsPath.dirname _) "");
        [|destruct (negb (makedirs_ok _ _));
          [|destruct (negb (open_write_ok _ _));
            [|destruct doc_text; try destruct (write_ok _ _)]]]]|];
  cbn [fst snd].

Lemma process_file_trace (st : MainState) (f : string) :
  exists evs,
    trace (world (process_file env st f))
    = trace (world st) ++ Print (MsgProcessing f) :: evs
    /\ Forall (file_event f) evs.
Proof.
  unfold process_file. split_try;
    rewrite ?except_eq, ?at_try_eq;
    cbn [world with_world add_events trace];
    rewrite <- ?app_assoc; cbn [app];
    eexists; (split; [reflexivity|]);
    repeat constructor.
Qed.

Lemma process_file_docs_keys (st : MainState) (f k : string) :
  k ∈ PyDict.keys (file_docs (process_file env st f)) ->
  k = f \/ k ∈ PyDict.keys (file_docs st).
Proof.
  unfold process_file. split_try;
    rewrite ?except_eq; cbn [file_docs with_world];
    rewrite ?PyDict_keys_setitem; auto.
Qed.

Lemma process_file_references_keys (st : MainState) (f k : string) :
  k ∈ PyDict.keys (file_references (process_file env st f)) ->
  k = f \/ k ∈ PyDict.keys (file_references st).
Proof.
  unfold process_file. split_try;
    rewrite ?except_eq; cbn [file_references with_world];
    rewrite ?PyDict_keys_setitem; auto.
Qed.




(** With a service whose completions are texts, the docs mapping holds
    texts only. *)
Lemma process_file_all_text (st : MainState) (f : string) :
  service_gives_text env ->
  all_text (file_docs st) -> all_text (file_docs (process_file env st f)).
Proof.
  intros Htext Hall. unfold process_file.
  rewrite try_block_cases; cbv zeta.
  destruct (fs _ !! _); [|exact Hall].
  destruct (service _ _ _) as [?|?|?|doc_text] eqn:Hreply; try exact Hall.
  apply Htext in Hreply.
  destruct (fst _); cbn [snd file_docs with_world outside];
    apply all_text_setitem; assumption.
Qed.

Lemma process_files_all_text (l : list string) (st : MainState) :
  service_gives_text env ->
  all_text (file_docs st) -> all_text (file_docs (process_files env l st)).
Proof.
  intros Htext. revert st; induction l as [|f l IH]; intros st Hall; cbn;
    [exact Hall|].
  apply IH, process_file_all_text; assumption.
Qed.

Lemma process_files_docs_keys (l : list string) (st : MainState) (k : string) :
  k ∈ PyDict.keys (file_docs (process_files env l st)) ->
  k ∈ l \/ k ∈ PyDict.keys (file_docs st).
Proof.
  revert st; induction l as [|f l IH]; intros st; cbn; [auto|].
  intros H. apply IH in H as [H | H]; [left; right; exact H|].
  apply process_file_docs_keys in H as [-> | H]; [left; left | right; exact H].
Qed.

Lemma process_files_references_keys (l : list string) (st : MainState)
      (k : string) :
  k ∈ PyDict.keys (file_references (process_files env l st)) ->
  k ∈ l \/ k ∈ PyDict.keys (file_references st).
Proof.
  revert st; induction l as [|f l IH]; intros st; cbn; [auto|].
  intros H. apply IH in H as [H | H]; [left; right; exact H|].
  apply process_file_references_keys in H as [-> | H];
    [left; left | right; exact H].
Qed.



Lemma process_files_trace (l : list string) (st : MainState) :
  exists evs,
    trace (world (process_files env l st)) = trace (world st) ++ evs
    /\ Forall (fun e => exists f, f ∈ l /\ file_event f e) evs
    /\ forall f, f ∈ l -> Print (MsgProcessing f) ∈ evs.
Proof.
  revert st; induction l as [|f l IH]; intros st.
  - exists []. cbn. rewrite app_nil_r. repeat split; [constructor|].
    intros f Hf. inversion Hf.
  - change (process_files env (f :: l) st)
      with (process_files env l (process_file env st f)).
    destruct (IH (process_file env st f)) as (evs2 & Htr2 & Hall2 & Hin2).
    destruct (process_file_trace st f) as (evs1 & Htr1 & Hall1).
    exists (Print (MsgProcessing f) :: evs1 ++ evs2).
    rewrite Htr2, Htr1, <- app_assoc. split; [reflexivity|]. split.
    + constructor; [exists f; split; [left | exact I]|].
      apply Forall_app; split.
      * eapply Forall_impl; [exact Hall1|].
        intros e He. exists f; split; [left | exact He].
      * eapply Forall_impl; [exact Hall2|].
        intros e (g & Hg & He). exists g; split; [right; exact Hg | exact He].
    + intros g Hg. apply elem_of_cons in Hg as [-> | Hg]; [left|].
      right. apply elem_of_app. right. apply Hin2, Hg.
Qed.

Lemma loop_start_eq (w : World) :
  loop_start env w
  = with_world (main_start w)
      (add_events w
         [Print MsgTraversing;
          Print (MsgTotal
                   (length (relevant_files
                              (traverse_local_files env LOCAL_REPO_PATH None))))]).
Proof.
  unfold loop_start, with_world, add_events, mbind, M_bind, bind, outside,
    print, emit, main_start.
  cbn [world fs trace file_docs file_references snd].
  rewrite <- app_assoc. reflexivity.
Qed.


(** [main], case by case: no relevant file; the assembler raises; the
    overview file refused; the overview text refused; the overview
    written. *)
Lemma main_cases (w : World) :
  main env (main_start w) =
  match relevant_files (traverse_local_files env LOCAL_REPO_PATH None) with
  | [] =>
      (inr tt,
       with_world (main_start w)
         (add_events w [Print MsgTraversing; Print MsgNoRelevant]))
  | _ :: _ =>
      let st := at_assembly env w in
      let generating := add_events (world st) [Print MsgGenerating] in
      match generate_overview_document (file_docs st) (file_references st) with
      | inl e => (inl e, with_world st generating)
      | inr text =>
          if negb (open_write_ok env overview_path)
          then (inl {| raised_in := Writing;
                       exn_text := os_error_text env overview_path |},
                with_world st generating)
          else if write_ok env overview_path
          then (inr tt,
                with_world st
                  {| fs := <[overview_path := text]> (fs (world st));
                     trace := trace (world st)
                              ++ [Print MsgGenerating;
                                  FileOpened overview_path;
                                  FileWrite overview_path text;
                                  Print (MsgOverviewSaved overview_path);
                                  Print MsgAllDone] |})
          else (inl {| raised_in := Writing;
                       exn_text := os_error_text env overview_path |},
                with_world st
                  {| fs := <[overview_path := torn_write env overview_path text]>
                             (fs (world st));
                     trace := trace (world st)
                              ++ [Print MsgGenerating;
                                  FileOpened overview_path] |})
      end
  end.
Proof.
  unfold at_assembly, loop_start, main.
  destruct (relevant_files (traverse_local_files env LOCAL_REPO_PATH None))
    as [|f l] eqn:Hrel.
  - unfold with_world, add_events, mbind, M_bind, bind, outside, print, emit,
      main_start, mret, M_ret, ret.
    cbn [world fs trace file_docs file_references snd].
    rewrite <- app_assoc. reflexivity.
  - cbv zeta.
    unfold write_file, mbind, M_bind, bind, outside, print, emit, for_each_file,
      gets, returned, open_write, file_write, mret, M_ret, ret,
      with_world, add_events.
    cbn [world fs trace file_docs file_references snd fst].
    destruct (generate_overview_document _ _) as [e|text];
      cbn [world fs trace file_docs file_references snd fst]; [reflexivity|].
    destruct (open_write_ok env overview_path);
      cbn [negb world fs trace file_docs file_references snd fst];
      [|reflexivity].
    destruct (write_ok env overview_path);
      cbn [world fs trace file_docs file_references snd fst];
      rewrite insert_insert_eq, <- ?app_assoc; reflexivity.
Qed.

Lemma join_last_char (a b : string) :
  b <> "" -> PyStr.last_char (OsPath.join a b) = PyStr.last_char b.
Proof.
  intros Hb. unfold OsPath.join.
  destruct (PyStr.startswith b OsPath.sep); [reflexivity|].
  destruct (String.eqb a "" || PyStr.endswith a OsPath.sep).
  - apply last_char_app, Hb.
  - rewrite last_char_app by discriminate. apply last_char_cons, Hb.
Qed.

(** A documentation file ends in [_doc.txt]: it is never the overview. *)
Lemma doc_output_path_not_overview (f : string) :
  doc_output_path f "_doc.txt" <> overview_path.
Proof.
  intros Heq. apply (f_equal PyStr.last_char) in Heq.
  unfold doc_output_path in Heq.
  rewrite join_last_char in Heq.
  - rewrite last_char_app in Heq by discriminate. vm_compute in Heq.
    discriminate.
  - destruct (fst (OsPath.splitext (OsPath.basename f))); discriminate.
Qed.

Lemma writes_to_app (path : string) (l1 l2 : list event) :
  writes_to path (l1 ++ l2) = (writes_to path l1 + writes_to path l2)%nat.
Proof. unfold writes_to. rewrite List.filter_app, length_app. reflexivity. Qed.

Lemma loop_writes_no_overview (l : list string) (evs : list event) :
  Forall (fun e => exists f, f ∈ l /\ file_event f e) evs ->
  writes_to overview_path evs = 0%nat.
Proof.
  induction 1 as [|e evs (f & _ & He) _ IH]; [reflexivity|].
  change (e :: evs) with ([e] ++ evs). rewrite writes_to_app, IH.
  destruct e as [m|f' prompt|path|path text]; try reflexivity.
  cbn in He. subst path. unfold writes_to. cbn [List.filter].
  pose proof (doc_output_path_not_overview f) as Hne.
  apply String.eqb_neq in Hne. rewrite Hne. reflexivity.
Qed.

(** The loop opens no file at the overview path either. *)
Lemma loop_opens_no_overview (l : list string) (evs : list event) :
  Forall (fun e => exists f, f ∈ l /\ file_event f e) evs ->
  FileOpened overview_path ∉ evs.
Proof.
  intros Hall Hin. rewrite Forall_forall in Hall.
  apply Hall in Hin as (f & _ & He). cbn in He.
  symmetry in He. apply doc_output_path_not_overview in He. exact He.
Qed.

Lemma relevant_allow_listed (all_files : list string) (f : string) :
  f ∈ relevant_files all_files ->
  f ∈ all_files /\ PyStr.lower (snd (OsPath.splitext f)) ∈ FILE_EXTENSIONS.
Proof.
  unfold relevant_files. intros H.
  apply list_elem_of_In, List.filter_In in H as [Hin Hrel].
  split; [apply list_elem_of_In, Hin|].
  unfold is_relevant in Hrel. apply bool_decide_eq_true in Hrel. exact Hrel.
Qed.

Lemma at_assembly_trace (w : World) :
  let relevant := relevant_files (traverse_local_files env LOCAL_REPO_PATH None) in
  exists evs,
    trace (world (at_assembly env w))
    = trace w ++ Print MsgTraversing :: Print (MsgTotal (length relevant)) :: evs
    /\ Forall (fun e => exists f, f ∈ relevant /\ file_event f e) evs
    /\ forall f, f ∈ relevant -> Print (MsgProcessing f) ∈ evs.
Proof.
  intros relevant. unfold at_assembly. fold relevant.
  destruct (process_files_trace relevant (loop_start env w))
    as (evs & Htr & Hall & Hin).
  exists evs. rewrite Htr, loop_start_eq. cbn [world with_world add_events trace].
  rewrite <- app_assoc. auto.
Qed.

Lemma at_assembly_docs_keys (w : World) (k : string) :
  k ∈ PyDict.keys (file_docs (at_assembly env w)) ->
  k ∈ relevant_files (traverse_local_files env LOCAL_REPO_PATH None).
Proof.
  intros H. apply process_files_docs_keys in H as [H | H]; [exact H|].
  rewrite loop_start_eq in H. inversion H.
Qed.

Lemma at_assembly_references_keys (w : World) (k : string) :
  k ∈ PyDict.keys (file_references (at_assembly env w)) ->
  k ∈ relevant_files (traverse_local_files env LOCAL_REPO_PATH None).
Proof.
  intros H. apply process_files_references_keys in H as [H | H]; [exact H|].
  rewrite loop_start_eq in H. inversion H.
Qed.

Lemma process_files_app (l1 l2 : list string) (st : MainState) :
  process_files env (l1 ++ l2) st
  = process_files env l2 (process_files env l1 st).
Proof. apply fold_left_app. Qed.

Lemma section_paths_elem {V} (d : PyDict.t V) (k : string) :
  k ∈ section_paths d <-> k ∈ PyDict.keys d.
Proof. unfold section_paths. rewrite sorted_Permutation. reflexivity. Qed.
End Script_facts.

(** C4: with no relevant file [main] prints its message and returns: the
    run adds two printed lines to the trace, so no request is sent and no
    file is written, the file system is as it was, and no overview exists
    that was not there before. *)
Theorem no_relevant_file_early_exit (env : Env) (w : World) :
  relevant_files (traverse_local_files env LOCAL_REPO_PATH None) = [] ->
  main env (main_start w)
  = (inr tt,
     {| world := {| fs := fs w;
                    trace := trace w ++ [Print MsgTraversing; Print MsgNoRelevant] |};
        file_docs := PyDict.empty;
        file_references := PyDict.empty |})
  /\ render MsgNoRelevant = "No relevant files found for processing.".
Proof.
  intros Hrel. split; [|reflexivity].
  rewrite main_cases, Hrel. reflexivity.
Qed.

(** On a docs mapping of texts the assembler returns a text. *)
Lemma generate_overview_document_all_text (d : PyDict.t json)
      (r : PyDict.t (list string)) :
  all_text d -> exists text, generate_overview_document d r = inr text.
Proof.
  intros Hall. apply all_text_values in Hall as [d0 ->].
  rewrite generate_overview_document_texts. eexists. reflexivity.
Qed.

(** C2, as the code has it: with at least one relevant file, a docs
    mapping that holds texts only when the loop is over, and a file system
    that lets the overview be opened and written, [main] writes the overview
    once, after every relevant file had its turn and whatever the turns led
    to, and the overview path then holds the new text whatever it held
    before. *)
Theorem overview_written_once (env : Env) (w : World) :
  relevant_files (traverse_local_files env LOCAL_REPO_PATH None) <> [] ->
  all_text (file_docs (at_assembly env w)) ->
  open_write_ok env overview_path = true ->
  write_ok env overview_path = true ->
  let relevant := relevant_files (traverse_local_files env LOCAL_REPO_PATH None) in
  let st := at_assembly env w in
  exists text during,
    let closing := [Print MsgGenerating; FileOpened overview_path;
                    FileWrite overview_path text;
                    Print (MsgOverviewSaved overview_path); Print MsgAllDone] in
    generate_overview_document (file_docs st) (file_references st) = inr text
    /\ trace (world st) = trace w ++ during
    /\ (forall f, f ∈ relevant -> Print (MsgProcessing f) ∈ during)
    /\ main env (main_start w)
       = (inr tt,
          {| world := {| fs := <[overview_path := text]> (fs (world st));
                         trace := trace w ++ during ++ closing |};
             file_docs := file_docs st;
             file_references := file_references st |})
    /\ writes_to overview_path (during ++ closing) = 1%nat
    /\ (FileOpened overview_path ∉ during)
    /\ fs (world (snd (main env (main_start w)))) !! overview_path = Some text.
Proof.
  intros Hne Htexts Hopen Hwrite relevant st. subst relevant.
  destruct (generate_overview_document_all_text _ (file_references st) Htexts)
    as [text Htext].
  destruct (at_assembly_trace env w) as (evs & Htr & Hall & Hin).
  fold st in Htr, Htext.
  set (closing := [Print MsgGenerating; FileOpened overview_path;
                   FileWrite overview_path text;
                   Print (MsgOverviewSaved overview_path); Print MsgAllDone]).
  assert (Hmain : main env (main_start w)
                  = (inr tt,
                     with_world st
                       {| fs := <[overview_path := text]> (fs (world st));
                          trace := trace (world st) ++ closing |})).
  { rewrite main_cases.
    destruct (relevant_files (traverse_local_files env LOCAL_REPO_PATH None))
      as [|f l]; [congruence|].
    cbv zeta. fold st. rewrite Htext, Hopen, Hwrite. reflexivity. }
  exists text.
  eexists (Print MsgTraversing :: Print (MsgTotal _) :: evs).
  cbv zeta. fold closing.
  split; [exact Htext|]. split; [exact Htr|]. split; [|split; [|split; [|split]]].
  - intros f Hf. right. right. apply Hin, Hf.
  - rewrite Hmain, Htr, <- app_assoc. reflexivity.
  - rewrite writes_to_app.
    change (Print MsgTraversing :: Print (MsgTotal ?n) :: evs)
      with ([Print MsgTraversing; Print (MsgTotal n)] ++ evs).
    rewrite writes_to_app, (loop_writes_no_overview _ evs Hall).
    unfold closing, writes_to. cbn [List.filter].
    rewrite String.eqb_refl. reflexivity.
  - intros H. repeat (apply elem_of_cons in H as [H | H]; [discriminate|]).
    exact (loop_opens_no_overview _ evs Hall H).
  - rewrite Hmain. cbn [snd with_world world fs]. apply lookup_insert_eq.
Qed.

(** C2 as stated fails: the service answers the request for the one
    relevant file with a completion whose content is [null]; the value is
    stored, the assembler raises on it outside the [try], and [main] ends
    without a write at the overview path, which holds what it held before,
    although the path can be opened and written. *)
Lemma null_content_no_overview :
  relevant_files (traverse_local_files null_env LOCAL_REPO_PATH None) = ["./x.php"]
  /\ open_write_ok null_env overview_path = true
  /\ write_ok null_env overview_path = true
  /\ PyDict.get (file_docs (at_assembly null_env overviewed_world)) "./x.php"
     = Some JNull
  /\ fst (main null_env (main_start overviewed_world))
     = inl {| raised_in := Assembling;
              exn_text := "'NoneType' object has no attribute 'strip'" |}
  /\ writes_to overview_path
       (trace (world (snd (main null_env (main_start overviewed_world))))) = 0%nat
  /\ fs (world (snd (main null_env (main_start overviewed_world)))) !! overview_path
     = Some "an earlier overview".
Proof. repeat split; vm_compute; reflexivity. Qed.

(** When the file system refuses to open the overview, [main] ends with
    that error: nothing is written at the overview path. *)
Lemma overview_refused (env : Env) (w : World) :
  relevant_files (traverse_local_files env LOCAL_REPO_PATH None) <> [] ->
  all_text (file_docs (at_assembly env w)) ->
  open_write_ok env overview_path = false ->
  let st := at_assembly env w in
  main env (main_start w)
  = (inl {| raised_in := Writing; exn_text := os_error_text env overview_path |},
     with_world st (add_events (world st) [Print MsgGenerating])).
Proof.
  intros Hne Htexts Hno st. rewrite main_cases.
  destruct (relevant_files (traverse_local_files env LOCAL_REPO_PATH None))
    as [|f l]; [congruence|].
  cbv zeta. subst st.
  destruct (generate_overview_document_all_text
              _ (file_references (at_assembly env w)) Htexts) as [text ->].
  rewrite Hno. reflexivity.
Qed.

(** C3: a file whose lower-cased extension is not on the allow-list is
    never handed to the requester (a request for it in the trace was there
    before the run) and is no key of either mapping. *)
Theorem only_allow_listed_files (env : Env) (w : World) (f : string) :
  PyStr.lower (snd (OsPath.splitext f)) ∉ FILE_EXTENSIONS ->
  let st := snd (main env (main_start w)) in
  (forall prompt,
      Requested f prompt ∈ trace (world st) -> Requested f prompt ∈ trace w)
  /\ (f ∉ PyDict.keys (file_docs st))
  /\ (f ∉ PyDict.keys (file_references st)).
Proof.
  intros Hext st. subst st. rewrite main_cases.
  destruct (relevant_files (traverse_local_files env LOCAL_REPO_PATH None))
    as [|g l] eqn:Hrel.
  - cbn [snd with_world world trace add_events file_docs file_references
             main_start].
    split; [|split]; [|intros H; inversion H..].
    intros prompt H. apply elem_of_app in H as [H | H]; [exact H|].
    repeat (apply elem_of_cons in H as [H | H]; [discriminate|]).
    inversion H.
  - assert (Hnot : f ∉ relevant_files (traverse_local_files env LOCAL_REPO_PATH None)).
    { intros Hin. apply relevant_allow_listed in Hin as [_ Hin]. auto. }
    destruct (at_assembly_trace env w) as (evs & Htr & Hall & _).
    assert (Hreq : forall prompt,
               Requested f prompt ∈ trace (world (at_assembly env w)) ->
               Requested f prompt ∈ trace w).
    { intros prompt H. rewrite Htr in H.
      apply elem_of_app in H as [H | H]; [exact H|].
      repeat (apply elem_of_cons in H as [H | H]; [discriminate|]).
      rewrite Forall_forall in Hall. apply Hall in H as (g' & Hg' & Hev).
      cbn in Hev. subst g'. contradiction. }
    cbv zeta.
    destruct (generate_overview_document _ _) as [e|text];
      [|destruct (negb (open_write_ok env overview_path));
        [|destruct (write_ok env overview_path)]];
      cbn [snd with_world world trace add_events file_docs file_references];
      (split; [|split];
       [intros prompt H; apply elem_of_app in H as [H | H]; [auto|];
        repeat (apply elem_of_cons in H as [H | H]; [discriminate|]);
        inversion H
       |intros H; apply at_assembly_docs_keys in H; contradiction
       |intros H; apply at_assembly_references_keys in H; contradiction]).
Qed.




Lemma no_relevant_file_early_exit_witness :
  relevant_files (traverse_local_files idle_env LOCAL_REPO_PATH None) = []
  /\ main idle_env (main_start sample_world)
     = (inr tt,
        {| world := {| fs := fs sample_world;
                       trace := [Print MsgTraversing; Print MsgNoRelevant] |};
           file_docs := PyDict.empty;
           file_references := PyDict.empty |}).
Proof.
  assert (Hrel : relevant_files (traverse_local_files idle_env LOCAL_REPO_PATH None)
                 = []) by reflexivity.
  split; [exact Hrel|].
  exact (proj1 (no_relevant_file_early_exit idle_env sample_world Hrel)).
Defined.

Lemma overview_written_once_witness :
  relevant_files (traverse_local_files sample_env LOCAL_REPO_PATH None) <> []
  /\ all_text (file_docs (at_assembly sample_env sample_world))
  /\ open_write_ok sample_env overview_path = true
  /\ write_ok sample_env overview_path = true
  /\ exists text,
       generate_overview_document
         (file_docs (at_assembly sample_env sample_world))
         (file_references (at_assembly sample_env sample_world)) = inr text
       /\ fs (world (snd (main sample_env (main_start sample_world))))
            !! overview_path = Some text.
Proof.
  assert (Hne : relevant_files (traverse_local_files sample_env LOCAL_REPO_PATH None)
                <> []) by (vm_compute; discriminate).
  assert (Htexts : all_text (file_docs (at_assembly sample_env sample_world)))
    by (vm_compute; repeat constructor).
  assert (Hopen : open_write_ok sample_env overview_path = true) by reflexivity.
  assert (Hwrite : write_ok sample_env overview_path = true) by reflexivity.
  split; [exact Hne|]. split; [exact Htexts|].
  split; [exact Hopen|]. split; [exact Hwrite|].
  destruct (overview_written_once sample_env sample_world Hne Htexts Hopen Hwrite)
    as (text & during & Htext & _ & _ & _ & _ & _ & Hfs).
  exists text. split; [exact Htext | exact Hfs].
Defined.

Lemma only_allow_listed_files_witness :
  (PyStr.lower (snd (OsPath.splitext "./README.md")) ∉ FILE_EXTENSIONS)
  /\ ("./README.md"
      ∉ PyDict.keys (file_docs (snd (main sample_env (main_start sample_world))))).
Proof.
  assert (Hext : PyStr.lower (snd (OsPath.splitext "./README.md")) ∉ FILE_EXTENSIONS)
    by (apply (bool_decide_unpack _); vm_compute; exact I).
  split; [exact Hext|].
  exact (proj1 (proj2 (only_allow_listed_files sample_env sample_world
                         "./README.md" Hext))).
Defined.

(** ** Per-File Writer *)

Lemma save_file_ok (env : Env) (original_file_path content suffix : string)
      (w : World) :
  OsPath.dirname original_file_path <> "" ->
  makedirs_ok env (OsPath.dirname original_file_path) = true ->
  open_write_ok env (doc_output_path original_file_path suffix) = true ->
  write_ok env (doc_output_path original_file_path suffix) = true ->
  save_file_in_same_directory env original_file_path (JString content) suffix w
  = (inr (doc_output_path original_file_path suffix),
     {| fs := <[doc_output_path original_file_path suffix := content]> (fs w);
        trace := trace w
                 ++ [FileOpened (doc_output_path original_file_path suffix);
                     FileWrite (doc_output_path original_file_path suffix) content;
                     Print (MsgFileSaved
                              (doc_output_path original_file_path suffix))] |}).
Proof.
  intros Hdir Hmk Hopen Hwrite. rewrite save_file_cases. cbv zeta.
  apply String.eqb_neq in Hdir. rewrite Hdir, Hmk, Hopen, Hwrite. reflexivity.
Qed.

(** Two paths with the same directory and the same base name without
    extension get the same documentation file. *)
Lemma doc_output_path_same_stem (p1 p2 suffix : string) :
  OsPath.dirname p1 = OsPath.dirname p2 ->
  fst (OsPath.splitext (OsPath.basename p1))
  = fst (OsPath.splitext (OsPath.basename p2)) ->
  doc_output_path p1 suffix = doc_output_path p2 suffix.
Proof. intros Hd Hs. unfold doc_output_path. rewrite Hd, Hs. reflexivity. Qed.

(** C10: [dir/x.sql] and [dir/x.php] are two relevant files with one
    documentation file, [dir/x_doc.txt]: written one after the other on a
    file system that lets the directory be made and the file be opened and
    written, both writes succeed and the file holds the page of the
    second. *)
Theorem doc_output_path_collision (env : Env) (w : World)
        (doc_sql doc_php : string) :
  makedirs_ok env "dir" = true ->
  open_write_ok env "dir/x_doc.txt" = true ->
  write_ok env "dir/x_doc.txt" = true ->
  let first :=
    save_file_in_same_directory env "dir/x.sql" (JString doc_sql) "_doc.txt" w in
  let second :=
    save_file_in_same_directory env "dir/x.php" (JString doc_php) "_doc.txt"
                                (snd first) in
  "dir/x.sql" <> "dir/x.php"
  /\ is_relevant "dir/x.sql" = true /\ is_relevant "dir/x.php" = true
  /\ doc_output_path "dir/x.sql" "_doc.txt" = "dir/x_doc.txt"
  /\ doc_output_path "dir/x.php" "_doc.txt" = "dir/x_doc.txt"
  /\ fst first = inr "dir/x_doc.txt"
  /\ fs (snd first) !! "dir/x_doc.txt" = Some doc_sql
  /\ fst second = inr "dir/x_doc.txt"
  /\ fs (snd second) !! "dir/x_doc.txt" = Some doc_php.
Proof.
  intros Hmk Hopen Hwrite first second.
  assert (Hsql : doc_output_path "dir/x.sql" "_doc.txt" = "dir/x_doc.txt")
    by reflexivity.
  assert (Hphp : doc_output_path "dir/x.php" "_doc.txt" = "dir/x_doc.txt")
    by reflexivity.
  assert (Hfirst : first
                   = (inr "dir/x_doc.txt",
                      {| fs := <["dir/x_doc.txt" := doc_sql]> (fs w);
                         trace := trace w
                                  ++ [FileOpened "dir/x_doc.txt";
                                      FileWrite "dir/x_doc.txt" doc_sql;
                                      Print (MsgFileSaved "dir/x_doc.txt")] |})).
  { unfold first. rewrite save_file_ok.
    - rewrite Hsql. reflexivity.
    - vm_compute. discriminate.
    - exact Hmk.
    - rewrite Hsql. exact Hopen.
    - rewrite Hsql. exact Hwrite. }
  assert (Hsecond : second
                    = (inr "dir/x_doc.txt",
                       {| fs := <["dir/x_doc.txt" := doc_php]> (fs (snd first));
                          trace := trace (snd first)
                                   ++ [FileOpened "dir/x_doc.txt";
                                       FileWrite "dir/x_doc.txt" doc_php;
                                       Print (MsgFileSaved "dir/x_doc.txt")] |})).
  { unfold second. rewrite save_file_ok.
    - rewrite Hphp. reflexivity.
    - vm_compute. discriminate.
    - exact Hmk.
    - rewrite Hphp. exact Hopen.
    - rewrite Hphp. exact Hwrite. }
  split; [discriminate|]. split; [reflexivity|]. split; [reflexivity|].
  split; [exact Hsql|]. split; [exact Hphp|].
  rewrite Hsecond, Hfirst. cbn [fst snd fs].
  split; [reflexivity|]. split; [apply lookup_insert_eq|].
  split; [reflexivity|]. apply lookup_insert_eq.
Qed.

Lemma doc_output_path_collision_witness :
  makedirs_ok sample_env "dir" = true
  /\ open_write_ok sample_env "dir/x_doc.txt" = true
  /\ write_ok sample_env "dir/x_doc.txt" = true
  /\ fs (snd (save_file_in_same_directory sample_env "dir/x.php"
                (JString "page two") "_doc.txt"
                (snd (save_file_in_same_directory sample_env "dir/x.sql"
                        (JString "page one") "_doc.txt" sample_world))))
     !! "dir/x_doc.txt"
     = Some "page two".
Proof.
  assert (Hmk : makedirs_ok sample_env "dir" = true) by reflexivity.
  assert (Hopen : open_write_ok sample_env "dir/x_doc.txt" = true) by reflexivity.
  assert (Hwrite : write_ok sample_env "dir/x_doc.txt" = true) by reflexivity.
  split; [exact Hmk|]. split; [exact Hopen|]. split; [exact Hwrite|].
  exact (proj2 (proj2 (proj2 (proj2 (proj2 (proj2 (proj2 (proj2
           (doc_output_path_collision sample_env sample_world
              "page one" "page two" Hmk Hopen Hwrite))))))))).
Defined.

(** * Further properties *)

(** ** Paths *)

Lemma app_nil_r_string (s : string) : s +:+ "" = s.
Proof. induction s as [|a s IH]; [reflexivity|]. rewrite app_cons, IH. reflexivity. Qed.

Lemma splitext_app (p : string) :
  fst (OsPath.splitext p) +:+ snd (OsPath.splitext p) = p.
Proof.
  unfold OsPath.splitext.
  destruct (_ && _); cbn [fst snd]; [apply take_drop | apply app_nil_r_string].
Qed.

Lemma doc_output_path_last_char (p : string) :
  PyStr.last_char (doc_output_path p "_doc.txt") = Some "t"%char.
Proof.
  unfold doc_output_path. rewrite join_last_char.
  - rewrite last_char_app by discriminate. reflexivity.
  - destruct (fst (OsPath.splitext (OsPath.basename p))); discriminate.
Qed.

(** The last character of a relevant path is the last character of an
    extension of the allow-list, in either case. *)
Lemma relevant_last_char (f : string) :
  is_relevant f = true ->
  exists c, PyStr.last_char f = Some c
            /\ (PyStr.lower_char c = "l"%char \/ PyStr.lower_char c = "h"%char
                \/ PyStr.lower_char c = "p"%char).
Proof.
  intros Hrel. unfold is_relevant in Hrel. apply bool_decide_eq_true in Hrel.
  pose proof (splitext_app f) as Hsplit.
  pose proof (last_char_lower (snd (OsPath.splitext f))) as Hlow.
  destruct (snd (OsPath.splitext f)) as [|a ext] eqn:Hext.
  - exfalso. cbn in Hrel.
    repeat (apply elem_of_cons in Hrel as [Hrel | Hrel]; [discriminate|]).
    inversion Hrel.
  - rewrite <- Hsplit, last_char_app by discriminate.
    destruct (PyStr.last_char (String a ext)) as [c|] eqn:Hlast.
    + exists c. split; [reflexivity|].
      cbn [fmap option_fmap option_map] in Hlow.
      apply elem_of_cons in Hrel as [Hrel | Hrel].
      { rewrite Hrel in Hlow.
        change (PyStr.last_char ".sql") with (Some "l"%char) in Hlow.
        injection Hlow as Hlow. auto. }
      apply elem_of_cons in Hrel as [Hrel | Hrel].
      { rewrite Hrel in Hlow.
        change (PyStr.last_char ".sh") with (Some "h"%char) in Hlow.
        injection Hlow as Hlow. auto. }
      apply elem_of_cons in Hrel as [Hrel | Hrel]; [|inversion Hrel].
      rewrite Hrel in Hlow.
      change (PyStr.last_char ".php") with (Some "p"%char) in Hlow.
      injection Hlow as Hlow. auto.
    + exfalso. clear -Hlast. revert a Hlast.
      induction ext as [|b ext IH]; intros a Hlast; [discriminate|].
      apply (IH b). exact Hlast.
Qed.

Lemma relevant_not_doc_output (f p : string) :
  is_relevant f = true -> f <> doc_output_path p "_doc.txt".
Proof.
  intros Hrel Heq. apply relevant_last_char in Hrel as (c & Hc & Hlow).
  rewrite Heq, doc_output_path_last_char in Hc. injection Hc as <-.
  vm_compute in Hlow. destruct Hlow as [H | [H | H]]; discriminate.
Qed.

Lemma relevant_not_overview (f : string) :
  is_relevant f = true -> f <> overview_path.
Proof.
  intros Hrel Heq. apply relevant_last_char in Hrel as (c & Hc & Hlow).
  rewrite Heq in Hc. vm_compute in Hc. injection Hc as <-.
  vm_compute in Hlow. destruct Hlow as [H | [H | H]]; discriminate.
Qed.



(** ** The writer *)



(** X2: a path without a slash has no directory part, and the writer then
    fails on [os.makedirs] before it opens any file. *)
Theorem save_file_bare_name (env : Env)
        (original_file_path : string) (content : json) (suffix : string)
        (w : World) :
  has_char "/" original_file_path = false ->
  save_file_in_same_directory env original_file_path content suffix w
  = (inl {| raised_in := Writing;
            exn_text := "[Errno 2] No such file or directory: ''" |}, w).
Proof.
  intros Hno.
  assert (Hfind : PyStr.rfind original_file_path "/" = -1).
  { unfold has_char in Hno. apply negb_false_iff in Hno.
    induction original_file_path as [|a s IH]; [reflexivity|].
    cbn [str_all] in Hno. apply andb_prop in Hno as [Ha Hs].
    cbn [PyStr.rfind]. rewrite (IH Hs).
    apply negb_true_iff in Ha. rewrite Ha. reflexivity. }
  assert (Hdir : OsPath.dirname original_file_path = "").
  { unfold OsPath.dirname, OsPath.sep. rewrite Hfind.
    destruct original_file_path; reflexivity. }
  unfold save_file_in_same_directory, makedirs, mbind, M_bind, bind, raise.
  rewrite Hdir. reflexivity.
Qed.

Lemma save_file_bare_name_witness :
  has_char "/" "seed.sql" = false
  /\ fst (save_file_in_same_directory sample_env "seed.sql" (JString "page")
            "_doc.txt" sample_world)
     = inl {| raised_in := Writing;
              exn_text := "[Errno 2] No such file or directory: ''" |}.
Proof.
  assert (H : has_char "/" "seed.sql" = false) by reflexivity.
  split; [exact H|].
  exact (f_equal fst (save_file_bare_name sample_env "seed.sql" (JString "page")
                        "_doc.txt" sample_world H)).
Defined.

(** ** One turn of the loop *)

Ltac turn_cases :=
  rewrite try_block_cases; cbv zeta;
  destruct (fs (world (at_try _ _)) !! _);
  [destruct (service _ _ _) as [?|?|?|doc_text];
   [..| rewrite save_file_cases; cbv zeta;
        destruct (String.eqb (OsPath.dirname _) "");
        [|destruct (negb (makedirs_ok _ _));
          [|destruct (negb (open_write_ok _ _));
            [|destruct doc_text; try destruct (write_ok _ _)]]]]|];
  cbn [fst snd].

Lemma process_file_fs_frame (env : Env) (st : MainState) (f q : string) :
  q <> doc_output_path f "_doc.txt" ->
  fs (world (process_file env st f)) !! q = fs (world st) !! q.
Proof.
  intros Hq. unfold process_file. turn_cases;
    rewrite ?except_eq, ?at_try_eq;
    cbn [world with_world add_events fs]; try reflexivity;
    apply lookup_insert_ne; congruence.
Qed.

Lemma process_files_fs_frame (env : Env) (l : list string) (st : MainState)
      (q : string) :
  (forall f, f ∈ l -> q <> doc_output_path f "_doc.txt") ->
  fs (world (process_files env l st)) !! q = fs (world st) !! q.
Proof.
  revert st; induction l as [|f l IH]; intros st Hq; [reflexivity|].
  change (process_files env (f :: l) st)
    with (process_files env l (process_file env st f)).
  rewrite IH by (intros g Hg; apply Hq; right; exact Hg).
  apply process_file_fs_frame, Hq. left.
Qed.

(** X3: a turn of the loop changes at most one file, the documentation
    file of the turn's file, and leaves it in one of three ways.  Either
    the file system is as before the turn; or the file was written, the
    turn ends with the writer's confirmation, and the file holds the text
    the docs mapping now has for the turn's file; or the file was opened
    and the write raised, the turn ends with a failure line, and the file
    is empty when the value the docs mapping now has is no text, and holds
    what the failed write left when that value is a text. *)
Theorem turn_writes_its_page (env : Env) (st : MainState) (f : string) :
  let st' := process_file env st f in
  let out := doc_output_path f "_doc.txt" in
  fs (world st') = fs (world st)
  \/ (exists text,
        fs (world st') = <[out := text]> (fs (world st))
        /\ PyDict.get (file_docs st') f = Some (JString text)
        /\ last (trace (world st')) = Some (Print (MsgFileSaved out)))
  \/ (exists doc_text left why,
        fs (world st') = <[out := left]> (fs (world st))
        /\ PyDict.get (file_docs st') f = Some doc_text
        /\ last (trace (world st')) = Some (Print (MsgFailed f why))
        /\ match doc_text with
           | JString text =>
               left = torn_write env out text /\ write_ok env out = false
           | _ => left = ""
           end).
Proof.
  intros st' out. subst st' out. unfold process_file.
  rewrite try_block_cases; cbv zeta.
  destruct (fs (world (at_try _ _)) !! _); [|left; reflexivity].
  destruct (service _ _ _) as [?|?|?|doc_text]; try (left; reflexivity).
  rewrite save_file_cases; cbv zeta.
  destruct (String.eqb (OsPath.dirname _) ""); [left; reflexivity|].
  destruct (negb (makedirs_ok _ _)); [left; reflexivity|].
  destruct (negb (open_write_ok _ _)); [left; reflexivity|].
  right.
  destruct doc_text; try destruct (write_ok _ _) eqn:Hwrite;
    cbn [fst snd]; rewrite ?except_eq, ?at_try_eq;
    cbn [world with_world add_events fs trace file_docs exn_text];
    rewrite <- ?app_assoc; cbn [app].
  all: try (right; eexists _, _, _;
            split; [reflexivity|];
            split; [apply PyDict_get_setitem_eq|];
            split; [rewrite !last_app_cons; reflexivity|];
            auto).
  left. eexists.
  split; [reflexivity|]. split; [apply PyDict_get_setitem_eq|].
  rewrite !last_app_cons. reflexivity.
Qed.

Ltac main_tail :=
  cbv zeta;
  destruct (generate_overview_document _ _) as [?|?];
  [|destruct (negb (open_write_ok _ overview_path));
    [|destruct (write_ok _ overview_path)]].

Lemma main_fs_at_assembly (env : Env) (w : World) (q : string) :
  q <> overview_path ->
  fs (world (snd (main env (main_start w)))) !! q
  = fs (world (at_assembly env w)) !! q.
Proof.
  intros Hq. rewrite main_cases. unfold at_assembly.
  destruct (relevant_files (traverse_local_files env LOCAL_REPO_PATH None))
    as [|f l] eqn:Hrel.
  - rewrite loop_start_eq. reflexivity.
  - main_tail; cbn [snd with_world add_events world fs]; try reflexivity;
      apply lookup_insert_ne; congruence.
Qed.

Lemma at_assembly_fs_frame (env : Env) (w : World) (q : string) :
  (forall f, f ∈ relevant_files (traverse_local_files env LOCAL_REPO_PATH None) ->
             q <> doc_output_path f "_doc.txt") ->
  fs (world (at_assembly env w)) !! q = fs w !! q.
Proof.
  intros Hq. unfold at_assembly. rewrite process_files_fs_frame by exact Hq.
  rewrite loop_start_eq. reflexivity.
Qed.

(** ** The whole run *)

(** X4: a run changes the file system at the overview path and at the
    documentation files of the relevant files, and nowhere else. *)
Theorem main_fs_frame (env : Env) (w : World) (q : string) :
  q <> overview_path ->
  (forall f, f ∈ relevant_files (traverse_local_files env LOCAL_REPO_PATH None) ->
             q <> doc_output_path f "_doc.txt") ->
  fs (world (snd (main env (main_start w)))) !! q = fs w !! q.
Proof.
  intros Hov Hdoc. rewrite main_fs_at_assembly by exact Hov.
  apply at_assembly_fs_frame, Hdoc.
Qed.

Lemma main_fs_frame_witness :
  "./x.php" <> overview_path
  /\ fs (world (snd (main sample_env (main_start sample_world)))) !! "./x.php"
     = Some php_sample.
Proof.
  assert (Hov : "./x.php" <> overview_path) by (vm_compute; discriminate).
  assert (Hdoc : forall f,
             f ∈ relevant_files (traverse_local_files sample_env LOCAL_REPO_PATH None) ->
             "./x.php" <> doc_output_path f "_doc.txt").
  { intros f Hf. change (f ∈ ["./x.php"; "./y.sql"; "./run.sh"]) in Hf.
    repeat (apply elem_of_cons in Hf as [-> | Hf]; [vm_compute; discriminate|]).
    inversion Hf. }
  split; [exact Hov|].
  exact (main_fs_frame sample_env sample_world "./x.php" Hov Hdoc).
Defined.

(** X5: no file with an allow-listed extension is ever changed by a run,
    be it one of the walked files or not: documentation files end in
    [_doc.txt] and the overview in [.md]. *)
Theorem main_spares_sources (env : Env) (w : World) (f : string) :
  is_relevant f = true ->
  fs (world (snd (main env (main_start w)))) !! f = fs w !! f.
Proof.
  intros Hrel.
  rewrite main_fs_at_assembly by (apply relevant_not_overview, Hrel).
  apply at_assembly_fs_frame. intros g _.
  apply relevant_not_doc_output, Hrel.
Qed.

Lemma main_spares_sources_witness :
  is_relevant "./run.sh" = true
  /\ fs (world (snd (main sample_env (main_start sample_world)))) !! "./run.sh"
     = Some "echo".
Proof.
  assert (H : is_relevant "./run.sh" = true) by reflexivity.
  split; [exact H|].
  exact (main_spares_sources sample_env sample_world "./run.sh" H).
Defined.

(** The assembler raises on the first path, in sorted order, whose value
    is no text; it cannot miss a key, the paths being the keys. *)
Lemma sections_run_raise (d : PyDict.t json) (r : PyDict.t (list string))
      (paths : list string) (e : exn) :
  (forall path, path ∈ paths -> path ∈ PyDict.keys d) ->
  fst (sections_run d r paths) = inl e ->
  exists path v,
    path ∈ paths /\ PyDict.get d path = Some v /\ is_text v = false
    /\ e = no_strip_error v.
Proof.
  induction paths as [|path paths IH]; intros Hkeys He; [discriminate|].
  cbn [sections_run] in He. unfold section_run in He.
  destruct (proj1 (PyDict_get_key d path) (Hkeys path ltac:(left))) as [v Hv].
  rewrite Hv in He.
  assert (Hrest : fst (sections_run d r paths) = inl e ->
                  exists path0 v0,
                    path0 ∈ path :: paths /\ PyDict.get d path0 = Some v0
                    /\ is_text v0 = false /\ e = no_strip_error v0).
  { intros H. destruct IH as (p & v0 & Hp & Hrest);
      [intros p Hp; apply Hkeys; right; exact Hp | exact H|].
    exists p, v0. split; [right; exact Hp | exact Hrest]. }
  destruct v; cbn [fst] in He; try (apply Hrest, He);
    injection He as <-; eexists path, _;
    (split; [left|]); (split; [exact Hv|]); split; reflexivity.
Qed.

Lemma generate_overview_document_raise (d : PyDict.t json)
      (r : PyDict.t (list string)) (e : exn) :
  generate_overview_document d r = inl e ->
  exists path v,
    PyDict.get d path = Some v /\ is_text v = false /\ e = no_strip_error v.
Proof.
  rewrite generate_overview_document_sections. intros He.
  destruct (fst (sections_run d r (section_paths d))) as [e'|[]] eqn:Hrun;
    [|discriminate].
  injection He as ->.
  apply sections_run_raise in Hrun as (path & v & _ & Hrest).
  - exists path, v. exact Hrest.
  - intros path Hpath. apply section_paths_elem in Hpath. exact Hpath.
Qed.

(** X6: no exception of a file's turn leaves [main]; the exceptions that
    do come from the three statements after the loop that no [try]
    guards.  With a relevant file, [main] returns when the docs mapping
    holds texts only and the overview can be opened and written; an
    exception that leaves it is the [AttributeError] of the assembler for
    a value of the docs mapping that is no text, or else the error of the
    overview's [open] or [write], and in the first two of these three
    cases the overview path holds what it held when the loop was over. *)
Theorem main_outcome (env : Env) (w : World) :
  relevant_files (traverse_local_files env LOCAL_REPO_PATH None) <> [] ->
  let st := at_assembly env w in
  let run := main env (main_start w) in
  (all_text (file_docs st) ->
   open_write_ok env overview_path = true ->
   write_ok env overview_path = true ->
   fst run = inr tt)
  /\ forall e,
       fst run = inl e ->
       (raised_in e = Assembling
        /\ (exists path doc_text,
               PyDict.get (file_docs st) path = Some doc_text
               /\ is_text doc_text = false
               /\ e = no_strip_error doc_text)
        /\ fs (world (snd run)) = fs (world st))
       \/ (e = {| raised_in := Writing;
                  exn_text := os_error_text env overview_path |}
           /\ open_write_ok env overview_path = false
           /\ fs (world (snd run)) = fs (world st))
       \/ (e = {| raised_in := Writing;
                  exn_text := os_error_text env overview_path |}
           /\ open_write_ok env overview_path = true
           /\ write_ok env overview_path = false
           /\ exists text,
                generate_overview_document (file_docs st) (file_references st)
                = inr text
                /\ fs (world (snd run)) !! overview_path
                   = Some (torn_write env overview_path text)).
Proof.
  intros Hne st run. subst run. rewrite main_cases.
  destruct (relevant_files (traverse_local_files env LOCAL_REPO_PATH None))
    as [|f l]; [congruence|].
  cbv zeta. fold st. split.
  - intros Htexts Hopen Hwrite.
    destruct (generate_overview_document_all_text _ (file_references st) Htexts)
      as [text ->].
    rewrite Hopen, Hwrite. reflexivity.
  - intros e.
    destruct (generate_overview_document (file_docs st) (file_references st))
      as [e'|text] eqn:Hgen.
    + cbn [fst snd with_world add_events world fs]. intros [= ->]. left.
      apply generate_overview_document_raise in Hgen
        as (path & v & Hv & Htext & ->).
      split; [reflexivity|]. split; [|reflexivity].
      exists path, v. auto.
    + destruct (open_write_ok env overview_path); cbn [negb].
      * destruct (write_ok env overview_path); [discriminate|].
        cbn [fst snd with_world world fs]. intros [= <-]. right. right.
        split; [reflexivity|]. split; [reflexivity|]. split; [reflexivity|].
        exists text. split; [reflexivity | apply lookup_insert_eq].
      * cbn [fst snd with_world add_events world fs]. intros [= <-].
        right. left. auto.
Qed.

Lemma main_outcome_witness :
  relevant_files (traverse_local_files null_env LOCAL_REPO_PATH None) <> []
  /\ fst (main null_env (main_start overviewed_world)) = inl (no_strip_error JNull)
  /\ fs (world (snd (main null_env (main_start overviewed_world))))
     = fs (world (at_assembly null_env overviewed_world)).
Proof.
  assert (Hne : relevant_files (traverse_local_files null_env LOCAL_REPO_PATH None)
                <> []) by (vm_compute; discriminate).
  assert (Hraise : fst (main null_env (main_start overviewed_world))
                   = inl (no_strip_error JNull)) by (vm_compute; reflexivity).
  split; [exact Hne|]. split; [exact Hraise|].
  destruct (proj2 (main_outcome null_env overviewed_world Hne) _ Hraise)
    as [(_ & _ & Hfs) | [(He & _) | (He & _)]];
    [exact Hfs | discriminate He | discriminate He].
Defined.

(** ** Requests *)

Lemma filter_request_app (l1 l2 : list event) :
  List.filter is_request (l1 ++ l2)
  = List.filter is_request l1 ++ List.filter is_request l2.
Proof. apply List.filter_app. Qed.

Lemma process_file_requests (env : Env) (st : MainState) (f : string) :
  List.filter is_request (trace (world (process_file env st f)))
  = List.filter is_request (trace (world st))
    ++ option_list (request_for (world st) f).
Proof.
  unfold process_file, request_for.
  change (fs (world st) !! f) with (fs (world (at_try st f)) !! f).
  turn_cases; rewrite ?except_eq, ?at_try_eq;
    cbn [world with_world add_events trace];
    rewrite ?filter_request_app; cbn [List.filter is_request app];
    rewrite ?app_nil_r; reflexivity.
Qed.

Lemma request_for_frame (env : Env) (st : MainState) (f : string)
      (l : list string) :
  Forall (fun g => is_relevant g = true) l ->
  omap (request_for (world (process_file env st f))) l
  = omap (request_for (world st)) l.
Proof.
  induction 1 as [|g l Hg _ IH]; [reflexivity|].
  cbn [omap list_omap]. rewrite IH. unfold request_for at 1 3.
  rewrite process_file_fs_frame by (apply relevant_not_doc_output, Hg).
  reflexivity.
Qed.

Lemma process_files_requests (env : Env) (l : list string) (st : MainState) :
  Forall (fun g => is_relevant g = true) l ->
  List.filter is_request (trace (world (process_files env l st)))
  = List.filter is_request (trace (world st))
    ++ omap (request_for (world st)) l.
Proof.
  intros Hl. revert st. induction Hl as [|f l Hf Hl IH]; intros st.
  - cbn. rewrite app_nil_r. reflexivity.
  - change (process_files env (f :: l) st)
      with (process_files env l (process_file env st f)).
    rewrite IH, process_file_requests, request_for_frame by exact Hl.
    rewrite <- app_assoc. f_equal.
    cbn [omap list_omap]. destruct (request_for (world st) f); reflexivity.
Qed.

Lemma relevant_files_relevant (all_files : list string) :
  Forall (fun g => is_relevant g = true) (relevant_files all_files).
Proof.
  apply List.Forall_forall. intros g Hg.
  apply List.filter_In in Hg as [_ Hg]. exact Hg.
Qed.

(** X7: the requests of a run are, in the order of the walk, one request
    per relevant file that can be read, with the prompt made from the
    content the file had when the run began; a relevant file that cannot
    be read costs no request. *)
Theorem main_requests (env : Env) (w : World) :
  List.filter is_request (trace (world (snd (main env (main_start w)))))
  = List.filter is_request (trace w)
    ++ omap (request_for w)
            (relevant_files (traverse_local_files env LOCAL_REPO_PATH None)).
Proof.
  assert (Hloop : List.filter is_request (trace (world (at_assembly env w)))
                  = List.filter is_request (trace w)
                    ++ omap (request_for w)
                         (relevant_files
                            (traverse_local_files env LOCAL_REPO_PATH None))).
  { unfold at_assembly.
    rewrite process_files_requests by apply relevant_files_relevant.
    rewrite loop_start_eq. cbn [world with_world add_events trace main_start fs].
    rewrite filter_request_app. cbn [List.filter is_request].
    rewrite app_nil_r. reflexivity. }
  rewrite main_cases.
  destruct (relevant_files (traverse_local_files env LOCAL_REPO_PATH None))
    as [|f l] eqn:Hrel.
  - cbn [snd with_world add_events world trace main_start].
    rewrite filter_request_app. reflexivity.
  - main_tail; cbn [snd with_world add_events world trace];
      rewrite filter_request_app, Hloop; cbn [List.filter is_request];
      rewrite app_nil_r; reflexivity.
Qed.

(** ** The two mappings *)

Lemma keys_setitem_same {A B : Type} (d1 : PyDict.t A) (d2 : PyDict.t B)
      (k : string) (v1 : A) (v2 : B) :
  PyDict.keys d1 = PyDict.keys d2 ->
  PyDict.keys (PyDict.setitem d1 k v1) = PyDict.keys (PyDict.setitem d2 k v2).
Proof.
  revert d2; induction d1 as [|[k1 a] d1 IH]; intros [|[k2 b] d2] H;
    try discriminate; [reflexivity|].
  cbn in H. injection H as -> H. cbn [PyDict.setitem].
  destruct (String.eqb k2 k); cbn [PyDict.keys map fst].
  - f_equal. exact H.
  - f_equal. apply IH, H.
Qed.

Lemma process_file_keys_in_step (env : Env) (st : MainState) (f : string) :
  PyDict.keys (file_docs st) = PyDict.keys (file_references st) ->
  PyDict.wf (file_docs st) ->
  PyDict.keys (file_docs (process_file env st f))
  = PyDict.keys (file_references (process_file env st f))
  /\ PyDict.wf (file_docs (process_file env st f)).
Proof.
  intros Hkeys Hwf. unfold process_file. turn_cases;
    rewrite ?except_eq, ?at_try_eq;
    cbn [world with_world add_events file_docs file_references];
    auto using keys_setitem_same, PyDict_setitem_wf.
Qed.

Lemma process_files_keys_in_step (env : Env) (l : list string) (st : MainState) :
  PyDict.keys (file_docs st) = PyDict.keys (file_references st) ->
  PyDict.wf (file_docs st) ->
  PyDict.keys (file_docs (process_files env l st))
  = PyDict.keys (file_references (process_files env l st))
  /\ PyDict.wf (file_docs (process_files env l st)).
Proof.
  revert st; induction l as [|f l IH]; intros st Hkeys Hwf; [auto|].
  change (process_files env (f :: l) st)
    with (process_files env l (process_file env st f)).
  destruct (process_file_keys_in_step env st f Hkeys Hwf) as [Hk Hw].
  apply IH; assumption.
Qed.

(** X8: when the overview is assembled the two mappings have the same
    keys in the same order, each once; so every path that gets a section
    has an entry in both, and the default of [file_references.get] is
    never used. *)
Theorem mappings_in_step (env : Env) (w : World) :
  let st := at_assembly env w in
  PyDict.keys (file_docs st) = PyDict.keys (file_references st)
  /\ NoDup (PyDict.keys (file_docs st))
  /\ forall path,
       path ∈ section_paths (file_docs st) ->
       is_Some (PyDict.get (file_docs st) path)
       /\ is_Some (PyDict.get (file_references st) path).
Proof.
  intros st.
  destruct (process_files_keys_in_step env
              (relevant_files (traverse_local_files env LOCAL_REPO_PATH None))
              (loop_start env w)) as [Hk Hw].
  { rewrite loop_start_eq. reflexivity. }
  { rewrite loop_start_eq. apply NoDup_nil_2. }
  fold (at_assembly env w) in Hk, Hw. fold st in Hk, Hw.
  split; [exact Hk|]. split; [exact Hw|].
  intros path Hpath. apply section_paths_elem in Hpath.
  split; apply PyDict_get_key; [exact Hpath | rewrite <- Hk; exact Hpath].
Qed.

Lemma process_file_service_down (env : Env) (st : MainState) (f : string) :
  (forall n prompt doc_text, service env n prompt <> Completion doc_text) ->
  file_docs (process_file env st f) = file_docs st
  /\ file_references (process_file env st f) = file_references st
  /\ fs (world (process_file env st f)) = fs (world st).
Proof.
  intros Hdown. unfold process_file. rewrite try_block_cases. cbv zeta.
  destruct (fs (world (at_try st f)) !! f); [|auto].
  destruct (service env _ _) eqn:Hs; try (repeat split; reflexivity).
  exfalso. exact (Hdown _ _ _ Hs).
Qed.

(** X9: when the service answers no request with a completion, no file
    gets an entry or a documentation file, and the overview that is
    assembled is the title and the intro alone. *)
Theorem service_down_bare_overview (env : Env) (w : World) :
  (forall n prompt doc_text, service env n prompt <> Completion doc_text) ->
  let st := at_assembly env w in
  file_docs st = PyDict.empty
  /\ file_references st = PyDict.empty
  /\ fs (world st) = fs w
  /\ generate_overview_document (file_docs st) (file_references st)
     = inr bare_overview.
Proof.
  intros Hdown st.
  assert (Hloop : forall l st0,
             file_docs (process_files env l st0) = file_docs st0
             /\ file_references (process_files env l st0) = file_references st0
             /\ fs (world (process_files env l st0)) = fs (world st0)).
  { induction l as [|f l IH]; intros st0; [auto|].
    change (process_files env (f :: l) st0)
      with (process_files env l (process_file env st0 f)).
    destruct (IH (process_file env st0 f)) as (-> & -> & ->).
    apply process_file_service_down, Hdown. }
  subst st. unfold at_assembly.
  destruct (Hloop (relevant_files (traverse_local_files env LOCAL_REPO_PATH None))
                  (loop_start env w)) as (Hd & Hr & Hf).
  rewrite Hd, Hr, Hf, loop_start_eq.
  repeat split.
Qed.

Lemma service_down_bare_overview_witness :
  (forall n prompt doc_text, service down_env n prompt <> Completion doc_text)
  /\ generate_overview_document
       (file_docs (at_assembly down_env sample_world))
       (file_references (at_assembly down_env sample_world))
     = inr bare_overview.
Proof.
  assert (H : forall n prompt doc_text,
             service down_env n prompt <> Completion doc_text)
    by (intros n prompt doc_text; discriminate).
  split; [exact H|].
  exact (proj2 (proj2 (proj2 (service_down_bare_overview down_env sample_world H)))).
Defined.

(** ** What the mappings hold *)

Lemma requests_add_print (w : World) (m : message) :
  requests (add_events w [Print m]) = requests w.
Proof.
  unfold requests. cbn [add_events trace]. rewrite filter_request_app.
  cbn [List.filter is_request]. rewrite app_nil_r. reflexivity.
Qed.

Lemma process_file_get_other (env : Env) (st : MainState) (f k : string) :
  k <> f ->
  PyDict.get (file_docs (process_file env st f)) k = PyDict.get (file_docs st) k
  /\ PyDict.get (file_references (process_file env st f)) k
     = PyDict.get (file_references st) k.
Proof.
  intros Hne. unfold process_file. turn_cases;
    rewrite ?except_eq, ?at_try_eq;
    cbn [world with_world add_events file_docs file_references];
    rewrite ?PyDict_get_setitem_ne by congruence; auto.
Qed.

Lemma process_files_get_other (env : Env) (l : list string) (st : MainState)
      (k : string) :
  k ∉ l ->
  PyDict.get (file_docs (process_files env l st)) k = PyDict.get (file_docs st) k
  /\ PyDict.get (file_references (process_files env l st)) k
     = PyDict.get (file_references st) k.
Proof.
  revert st; induction l as [|f l IH]; intros st Hk; [auto|].
  change (process_files env (f :: l) st)
    with (process_files env l (process_file env st f)).
  apply not_elem_of_cons in Hk as [Hne Hk].
  destruct (IH (process_file env st f) Hk) as [-> ->].
  apply process_file_get_other, Hne.
Qed.

Lemma process_file_entries (env : Env) (st : MainState) (f content : string)
      (doc_text : json) :
  fs (world st) !! f = Some content ->
  service env (requests (world st)) (prompt_text f content) = Completion doc_text ->
  PyDict.get (file_docs (process_file env st f)) f = Some doc_text
  /\ PyDict.get (file_references (process_file env st f)) f
     = Some (find_references_in_content f content).
Proof.
  intros Hfs Hsvc. unfold process_file. rewrite try_block_cases. cbv zeta.
  change (fs (world (at_try st f)) !! f) with (fs (world st) !! f).
  rewrite Hfs, requests_add_print.
  change (requests (world (at_try st f)))
    with (requests (add_events (world st) [Print (MsgProcessing f)])).
  rewrite requests_add_print, Hsvc.
  destruct (fst _); rewrite ?except_eq;
    cbn [snd world with_world add_events file_docs file_references];
    split; apply PyDict_get_setitem_eq.
Qed.

(** X10: what the mappings hold for a file.  For a relevant file that does
    not come again later in the list, that can be read, and whose request
    (its number is the number of readable relevant files before it) is
    answered with a completion, the docs mapping holds the content of that
    completion as it came, text or not, and the references mapping what the
    scanner finds in the content of the file, whether or not the
    documentation file could be written. *)
Theorem entries_come_from_sources (env : Env) (w : World)
        (pre : list string) (X : string) (post : list string)
        (content : string) (doc_text : json) :
  relevant_files (traverse_local_files env LOCAL_REPO_PATH None)
  = pre ++ X :: post ->
  X ∉ post ->
  fs w !! X = Some content ->
  service env (requests w + length (omap (request_for w) pre))%nat
          (prompt_text X content)
  = Completion doc_text ->
  let st := at_assembly env w in
  PyDict.get (file_docs st) X = Some doc_text
  /\ PyDict.get (file_references st) X
     = Some (find_references_in_content X content).
Proof.
  intros Hrel Hpost Hfs Hsvc st. subst st. unfold at_assembly.
  pose proof (relevant_files_relevant
                (traverse_local_files env LOCAL_REPO_PATH None)) as Hall.
  rewrite Hrel in Hall |- *. apply Forall_app in Hall as [Hpre HX].
  apply Forall_cons in HX as [HX _].
  rewrite process_files_app.
  change (process_files env (X :: post) ?s)
    with (process_files env post (process_file env s X)).
  set (stp := process_files env pre (loop_start env w)).
  destruct (process_files_get_other env post (process_file env stp X) X Hpost)
    as [-> ->].
  apply process_file_entries.
  - subst stp. rewrite process_files_fs_frame
      by (intros g _; apply relevant_not_doc_output, HX).
    rewrite loop_start_eq. exact Hfs.
  - subst stp. unfold requests.
    rewrite process_files_requests by exact Hpre.
    rewrite length_app, loop_start_eq.
    cbn [world with_world add_events trace fs main_start].
    rewrite filter_request_app. cbn [List.filter is_request].
    rewrite app_nil_r. exact Hsvc.
Qed.

Lemma entries_come_from_sources_witness :
  relevant_files (traverse_local_files sample_env LOCAL_REPO_PATH None)
  = ["./x.php"; "./y.sql"] ++ "./run.sh" :: []
  /\ fs sample_world !! "./run.sh" = Some "echo"
  /\ PyDict.get (file_docs (at_assembly sample_env sample_world)) "./run.sh"
     = Some (JString "  A page.  ")
  /\ PyDict.get (file_references (at_assembly sample_env sample_world)) "./run.sh"
     = Some [].
Proof.
  assert (Hrel : relevant_files (traverse_local_files sample_env LOCAL_REPO_PATH None)
                 = ["./x.php"; "./y.sql"] ++ "./run.sh" :: []) by reflexivity.
  assert (Hpost : "./run.sh" ∉ @nil string) by (intros H; inversion H).
  assert (Hfs : fs sample_world !! "./run.sh" = Some "echo") by reflexivity.
  assert (Hsvc : service sample_env
                   (requests sample_world
                    + length (omap (request_for sample_world)
                                   ["./x.php"; "./y.sql"]))%nat
                   (prompt_text "./run.sh" "echo")
                 = Completion (JString "  A page.  ")) by reflexivity.
  split; [exact Hrel|]. split; [exact Hfs|].
  exact (entries_come_from_sources sample_env sample_world
           ["./x.php"; "./y.sql"] "./run.sh" [] "echo" (JString "  A page.  ")
           Hrel Hpost Hfs Hsvc).
Defined.

(** ** What the overview depends on *)

(** X11: the overview shows the trimmed documentation and the reference
    lists of the documented paths and nothing else: two pairs of mappings
    with the same documented paths, the same trimmed texts and the same
    reference lists for them (a missing list counting as an empty one) give
    the same overview, whatever else the references mapping holds. *)
Theorem overview_reads_what_it_shows
        (file_docs file_docs' : PyDict.t string)
        (file_references file_references' : PyDict.t (list string)) :
  PyDict.keys file_docs ≡ₚ PyDict.keys file_docs' ->
  (forall path,
      path ∈ PyDict.keys file_docs ->
      PyStr.strip (default "" (PyDict.get file_docs path))
      = PyStr.strip (default "" (PyDict.get file_docs' path))
      /\ default [] (PyDict.get file_references path)
         = default [] (PyDict.get file_references' path)) ->
  generate_overview_document (text_values file_docs) file_references
  = generate_overview_document (text_values file_docs') file_references'.
Proof.
  intros Hkeys Hsame. rewrite !generate_overview_document_texts.
  f_equal. f_equal. f_equal. f_equal.
  unfold section_paths. rewrite <- (sorted_of_Permutation _ _ Hkeys).
  apply List.map_ext_in. intros path Hpath.
  apply list_elem_of_In in Hpath. rewrite sorted_Permutation in Hpath.
  destruct (Hsame path Hpath) as [Hdoc Hrefs].
  unfold spec_section, spec_doc_part, spec_refs_part.
  rewrite Hdoc, Hrefs. reflexivity.
Qed.

Lemma overview_reads_what_it_shows_witness :
  PyDict.keys padded_docs ≡ₚ PyDict.keys trimmed_docs
  /\ generate_overview_document (text_values padded_docs) sparse_refs
     = generate_overview_document (text_values trimmed_docs) dense_refs.
Proof.
  assert (Hkeys : PyDict.keys padded_docs ≡ₚ PyDict.keys trimmed_docs)
    by apply perm_swap.
  assert (Hsame : forall path,
             path ∈ PyDict.keys padded_docs ->
             PyStr.strip (default "" (PyDict.get padded_docs path))
             = PyStr.strip (default "" (PyDict.get trimmed_docs path))
             /\ default [] (PyDict.get sparse_refs path)
                = default [] (PyDict.get dense_refs path)).
  { intros path Hpath.
    apply elem_of_cons in Hpath as [-> | Hpath]; [split; reflexivity|].
    apply elem_of_cons in Hpath as [-> | Hpath]; [split; reflexivity|].
    inversion Hpath. }
  split; [exact Hkeys|].
  exact (overview_reads_what_it_shows padded_docs trimmed_docs
           sparse_refs dense_refs Hkeys Hsame).
Defined.

(** ** What the scanner returns *)

Lemma length_take (n : nat) (s : string) :
  (n <= String.length s)%nat -> String.length (PyStr.take n s) = n.
Proof.
  revert n; induction s as [|c s IH]; intros [|n] H; cbn in *; try lia.
  rewrite IH; lia.
Qed.

Lemma str_all_impl (p q : ascii -> bool) (s : string) :
  (forall c, p c = true -> q c = true) ->
  str_all p s = true -> str_all q s = true.
Proof.
  intros Hpq. induction s as [|c s IH]; [reflexivity|].
  cbn [str_all]. intros H. apply andb_prop in H as [Hc Hs].
  rewrite (Hpq c Hc), (IH Hs). reflexivity.
Qed.

(** A greedy repetition hands to its continuation the text less a prefix
    of characters of the class, at least [min] of them. *)
Lemma rep_greedy_prefix p min s caps k res :
  Re.rep_greedy p min s caps k = Some res ->
  exists n, k (PyStr.drop n s) caps = Some res
            /\ (min <= n <= String.length s)%nat
            /\ str_all p (PyStr.take n s) = true.
Proof.
  revert min; induction s as [|c s IH]; intros min H; cbn in H.
  - destruct min; [|discriminate].
    exists 0%nat. repeat split; [exact H | lia..].
  - assert (Hstop : match min with
                    | O => k (String c s) caps
                    | S _ => None
                    end = Some res ->
                    exists n, k (PyStr.drop n (String c s)) caps = Some res
                              /\ (min <= n <= String.length (String c s))%nat
                              /\ str_all p (PyStr.take n (String c s)) = true).
    { intros Hk. destruct min; [|discriminate].
      exists 0%nat. repeat split; [exact Hk | cbn; lia..]. }
    destruct (p c) eqn:Hpc; [|exact (Hstop H)].
    destruct (Re.rep_greedy p (Nat.pred min) s caps k) eqn:E; [|exact (Hstop H)].
    injection H as <-. apply IH in E as (n & Hk & Hlen & Hall).
    exists (S n). cbn [PyStr.drop PyStr.take str_all String.length].
    rewrite Hpc, Hall. repeat split; [exact Hk | lia..].
Qed.

(** A group around a greedy repetition captures such a prefix. *)
Lemma group_rep_captures n p min s caps k res :
  Re.exec (Re.Group n (Re.Rep min p)) s caps k = Some res ->
  exists tok rest,
    k rest (<[n := tok]> caps) = Some res
    /\ (min <= String.length tok)%nat
    /\ str_all p tok = true.
Proof.
  cbn [Re.exec]. intros H.
  apply rep_greedy_prefix in H as (m & Hk & Hlen & Hall).
  rewrite length_drop in Hk.
  replace (String.length s - (String.length s - m))%nat with m in Hk by lia.
  exists (PyStr.take m s), (PyStr.drop m s).
  rewrite length_take by lia. repeat split; [exact Hk | lia | exact Hall].
Qed.

Lemma exec_seq r1 r2 s caps k :
  Re.exec (Re.Seq r1 r2) s caps k
  = Re.exec r1 s caps (fun s1 caps1 => Re.exec r2 s1 caps1 k).
Proof. reflexivity. Qed.

(** Every match of the scan is a match of the pattern somewhere. *)
Lemma scan_matches r : forall s pos skip m,
  m ∈ Re.scan r s pos skip ->
  exists s' rest, Re.match_at r s' = Some (Re.m_groups m, rest).
Proof.
  induction s as [|c s IH]; intros pos skip m Hm.
  - destruct skip; cbn [Re.scan] in Hm; [|inversion Hm].
    destruct (Re.match_at r "") as [[caps rest]|] eqn:E; [|inversion Hm].
    apply elem_of_cons in Hm as [-> | Hm]; [|inversion Hm].
    exists "", rest. exact E.
  - destruct skip; cbn [Re.scan] in Hm; [|exact (IH _ _ _ Hm)].
    destruct (Re.match_at r (String c s)) as [[caps rest]|] eqn:E;
      [|exact (IH _ _ _ Hm)].
    apply elem_of_cons in Hm as [-> | Hm]; [|exact (IH _ _ _ Hm)].
    exists (String c s), rest. exact E.
Qed.

Lemma php_match_group s caps rest :
  Re.match_at PHP_INCLUDE_PATTERN s = Some (caps, rest) ->
  exists tok, caps !! 3%nat = Some tok
              /\ (1 <= String.length tok)%nat
              /\ str_all Re.not_quote tok = true.
Proof.
  unfold Re.match_at, PHP_INCLUDE_PATTERN. intros H.
  do 5 (rewrite exec_seq in H;
        apply exec_consumes in H as (? & ? & H & _); cbv beta in H).
  rewrite exec_seq in H.
  apply group_rep_captures in H as (tok & s6 & H & Hlen & Hall).
  cbv beta in H. exists tok.
  assert (Hcaps : exists caps5, caps = <[3%nat := tok]> caps5).
  { match type of H with
    | Re.exec _ _ (<[_ := _]> ?c) _ = _ => exists c
    end.
    cbn [Re.exec] in H. destruct s6 as [|c s6]; [discriminate|].
    destruct (Re.quote c); [|discriminate].
    destruct s6 as [|c' s6]; [injection H as <- _; reflexivity|].
    destruct (Re.is_char ")" c'); injection H as <- _; reflexivity. }
  destruct Hcaps as (caps5 & ->). split; [apply lookup_insert_eq | auto].
Qed.

Lemma sql_match_group s caps rest :
  Re.match_at SQL_INCLUDE_PATTERN s = Some (caps, rest) ->
  exists tok, caps !! 1%nat = Some tok
              /\ (1 <= String.length tok)%nat
              /\ str_all Re.not_semicolon_space tok = true.
Proof.
  unfold Re.match_at, SQL_INCLUDE_PATTERN. intros H.
  do 2 (rewrite exec_seq in H;
        apply exec_consumes in H as (? & ? & H & _); cbv beta in H).
  apply group_rep_captures in H as (tok & s3 & H & Hlen & Hall).
  injection H as <- _. exists tok. split; [apply lookup_insert_eq | auto].
Qed.

Lemma rstrip_no_space (s : string) :
  str_all (fun c => negb (PyStr.isspace c)) s = true -> PyStr.rstrip s = s.
Proof.
  induction s as [|c s IH]; [reflexivity|].
  cbn [str_all PyStr.rstrip]. intros H. apply andb_prop in H as [Hc Hs].
  rewrite (IH Hs). apply negb_true_iff in Hc. rewrite Hc.
  destruct s; reflexivity.
Qed.

Lemma strip_no_space (s : string) :
  str_all (fun c => negb (PyStr.isspace c)) s = true -> PyStr.strip s = s.
Proof.
  intros H. unfold PyStr.strip.
  assert (Hl : PyStr.lstrip s = s).
  { destruct s as [|c s]; [reflexivity|]. cbn [str_all] in H.
    apply andb_prop in H as [Hc _]. apply negb_true_iff in Hc.
    cbn [PyStr.lstrip]. rewrite Hc. reflexivity. }
  rewrite Hl. apply rstrip_no_space, H.
Qed.

Lemma has_char_false (c : ascii) (p : ascii -> bool) (s : string) :
  p c = false -> str_all p s = true -> has_char c s = false.
Proof.
  intros Hpc Hall. unfold has_char. apply negb_false_iff.
  apply (str_all_impl p); [|exact Hall].
  intros a Ha. apply negb_true_iff.
  destruct (Ascii.eqb_spec a c) as [-> | _]; [congruence | reflexivity].
Qed.

(** X12: a reference the scanner returns for a [.php] file is never empty
    and holds neither kind of quote. *)
Theorem php_references_well_formed (file_path content ref : string) :
  PyStr.lower (snd (OsPath.splitext file_path)) = ".php" ->
  ref ∈ find_references_in_content file_path content ->
  ref <> ""
  /\ has_char "'" ref = false
  /\ has_char "034"%char ref = false.
Proof.
  intros Hext Hin. rewrite (scanner_php_branch _ _ Hext) in Hin.
  apply list_elem_of_fmap in Hin as (m & -> & Hm).
  apply scan_matches in Hm as (s' & rest & Hm).
  apply php_match_group in Hm as (tok & Htok & Hlen & Hall).
  unfold Re.group. rewrite Htok. cbn [default from_option].
  split; [destruct tok; [cbn in Hlen; lia | discriminate]|].
  split; apply (has_char_false _ Re.not_quote); try exact Hall; reflexivity.
Qed.

Lemma php_references_well_formed_witness :
  PyStr.lower (snd (OsPath.splitext "a.php")) = ".php"
  /\ "c.php" ∈ find_references_in_content "a.php" php_sample
  /\ "c.php" <> "".
Proof.
  assert (Hext : PyStr.lower (snd (OsPath.splitext "a.php")) = ".php")
    by reflexivity.
  assert (Hin : "c.php" ∈ find_references_in_content "a.php" php_sample)
    by (apply (bool_decide_unpack _); vm_compute; exact I).
  split; [exact Hext|]. split; [exact Hin|].
  exact (proj1 (php_references_well_formed "a.php" php_sample "c.php" Hext Hin)).
Defined.

(** X13: for a [.sql] file the scanner returns the captured tokens as they
    are, the call of [strip] changing none of them: a token is never empty
    and holds no semicolon and no white space. *)
Theorem sql_references_well_formed (file_path content : string) :
  PyStr.lower (snd (OsPath.splitext file_path)) = ".sql" ->
  find_references_in_content file_path content
  = map (fun m => Re.group m 1) (Re.finditer SQL_INCLUDE_PATTERN content)
  /\ forall ref,
       ref ∈ find_references_in_content file_path content ->
       ref <> ""
       /\ has_char ";" ref = false
       /\ str_all (fun c => negb (PyStr.isspace c)) ref = true.
Proof.
  intros Hext. rewrite (scanner_sql_branch _ _ Hext).
  assert (Htok : forall m,
             m ∈ Re.finditer SQL_INCLUDE_PATTERN content ->
             Re.group m 1 <> ""
             /\ has_char ";" (Re.group m 1) = false
             /\ str_all (fun c => negb (PyStr.isspace c)) (Re.group m 1) = true).
  { intros m Hm. apply scan_matches in Hm as (s' & rest & Hm).
    apply sql_match_group in Hm as (tok & Htok & Hlen & Hall).
    unfold Re.group. rewrite Htok. cbn [default from_option].
    split; [destruct tok; [cbn in Hlen; lia | discriminate]|].
    split; [apply (has_char_false _ Re.not_semicolon_space);
            [reflexivity | exact Hall]|].
    apply (str_all_impl Re.not_semicolon_space); [|exact Hall].
    intros c Hc. unfold Re.not_semicolon_space in Hc.
    apply negb_true_iff, orb_false_elim in Hc as [_ Hc].
    rewrite Hc. reflexivity. }
  assert (Heq : map (fun m => PyStr.strip (Re.group m 1))
                    (Re.finditer SQL_INCLUDE_PATTERN content)
                = map (fun m => Re.group m 1)
                      (Re.finditer SQL_INCLUDE_PATTERN content)).
  { apply List.map_ext_in. intros m Hm. apply list_elem_of_In in Hm.
    apply strip_no_space, Htok, Hm. }
  rewrite Heq. split; [reflexivity|].
  intros ref Hin. apply list_elem_of_fmap in Hin as (m & -> & Hm).
  apply Htok, Hm.
Qed.

Lemma sql_references_well_formed_witness :
  PyStr.lower (snd (OsPath.splitext "seed.sql")) = ".sql"
  /\ find_references_in_content "seed.sql" sql_sample
     = map (fun m => Re.group m 1) (Re.finditer SQL_INCLUDE_PATTERN sql_sample).
Proof.
  assert (Hext : PyStr.lower (snd (OsPath.splitext "seed.sql")) = ".sql")
    by reflexivity.
  split; [exact Hext|].
  exact (proj1 (sql_references_well_formed "seed.sql" sql_sample Hext)).
Defined.

(** ** The walker and the writer *)

Lemma collect_files_app (root : string) (files file_list : list string) :
  fold_left (fun file_list file => file_list ++ [OsPath.join root file])
            files file_list
  = file_list ++ map (OsPath.join root) files.
Proof.
  revert file_list; induction files as [|file files IH]; intros file_list; cbn.
  - rewrite app_nil_r. reflexivity.
  - rewrite IH, <- app_assoc. reflexivity.
Qed.

Lemma collect_walk_app (walk : list (string * list string * list string))
      (file_list : list string) :
  collect_walk walk file_list
  = file_list
    ++ concat (map (fun '(root, _, files) => map (OsPath.join root) files) walk).
Proof.
  unfold collect_walk. revert file_list.
  induction walk as [|[[root dirs] files] walk IH]; intros file_list; cbn.
  - rewrite app_nil_r. reflexivity.
  - rewrite IH, collect_files_app, <- app_assoc. reflexivity.
Qed.

Lemma has_char_app (c : ascii) (s t : string) :
  has_char c (s +:+ t) = has_char c s || has_char c t.
Proof.
  unfold has_char. induction s as [|a s IH]; [reflexivity|].
  rewrite app_cons. cbn [str_all].
  destruct (Ascii.eqb a c); cbn [negb andb orb]; [reflexivity | exact IH].
Qed.

Lemma endswith_has_char (c : ascii) (s : string) :
  PyStr.endswith s c = true -> has_char c s = true.
Proof.
  unfold PyStr.endswith, has_char. induction s as [|a s IH]; [discriminate|].
  destruct s as [|b s].
  - cbn. destruct (Ascii.eqb a c); [reflexivity | discriminate].
  - intros H. change (PyStr.last_char (String a (String b s)))
      with (PyStr.last_char (String b s)) in H.
    apply IH in H. cbn [str_all] in *.
    destruct (Ascii.eqb a c); [reflexivity|]. exact H.
Qed.

Lemma join_has_slash (root file : string) :
  root <> "" -> has_char "/" (OsPath.join root file) = true.
Proof.
  intros Hroot. unfold OsPath.join, OsPath.sep.
  destruct (PyStr.startswith file "/") eqn:Hstart.
  - destruct file as [|a file]; [discriminate|]. cbn in Hstart.
    unfold has_char. cbn [str_all]. rewrite Hstart. reflexivity.
  - apply String.eqb_neq in Hroot. rewrite Hroot. cbn [orb].
    destruct (PyStr.endswith root "/") eqn:Hend; rewrite has_char_app.
    + rewrite (endswith_has_char _ _ Hend). reflexivity.
    + apply orb_true_intro. right. reflexivity.
Qed.

Lemma rfind_has_char (c : ascii) (s : string) :
  has_char c s = true -> 0 <= PyStr.rfind s c.
Proof.
  unfold has_char. induction s as [|a s IH]; [discriminate|].
  cbn [str_all PyStr.rfind].
  destruct (0 <=? PyStr.rfind s c) eqn:Hrec; [lia|].
  destruct (Ascii.eqb a c); cbn [negb andb]; [lia|].
  intros H. apply IH in H. lia.
Qed.

Lemma rstrip_char_all (c : ascii) (s : string) :
  PyStr.rstrip_char c s = "" -> PyStr.all_char c s = true.
Proof.
  induction s as [|a s IH]; [reflexivity|].
  cbn [PyStr.rstrip_char PyStr.all_char].
  destruct (PyStr.rstrip_char c s); [|discriminate].
  destruct (Ascii.eqb a c); [|discriminate].
  intros _. rewrite IH; reflexivity.
Qed.

Lemma dirname_has_slash (p : string) :
  has_char "/" p = true -> OsPath.dirname p <> "".
Proof.
  intros Hslash. apply rfind_has_char in Hslash.
  unfold OsPath.dirname, OsPath.sep.
  assert (Hhead : PyStr.take (Z.to_nat (PyStr.rfind p "/" + 1)) p <> "").
  { destruct p as [|a p]; [cbn in Hslash; lia|].
    replace (Z.to_nat (PyStr.rfind (String a p) "/" + 1))
      with (S (Z.to_nat (PyStr.rfind (String a p) "/"))) by lia.
    discriminate. }
  destruct (PyStr.take (Z.to_nat (PyStr.rfind p "/" + 1)) p) as [|a head];
    [congruence|].
  cbn [String.eqb negb andb].
  destruct (PyStr.all_char "/" (String a head)) eqn:Hall; cbn [negb];
    [discriminate|].
  intros Hempty. apply rstrip_char_all in Hempty. congruence.
Qed.

(** X14: the walker returns the list it is given (the empty list when it
    is given none) followed by the joined path of every file name of every
    directory the walk yields, directory after directory and name after
    name; and when the walk yields no directory with an empty root, every
    path the walker adds has a directory part, so that the writer's
    [os.makedirs] is not called with the empty path for it: called without
    a list, as [main] calls it, the walker then hands only such paths to
    the filter. *)
Theorem walked_paths_have_directory (env : Env) (path : string)
        (file_list : option (list string)) :
  Forall (fun '(root, _, _) => root <> "") (os_walk env path) ->
  let added :=
    concat (map (fun '(root, _, files) => map (OsPath.join root) files)
                (os_walk env path)) in
  traverse_local_files env path file_list = default [] file_list ++ added
  /\ (forall p, p ∈ added -> OsPath.dirname p <> "")
  /\ forall f, f ∈ relevant_files (traverse_local_files env path None) ->
               OsPath.dirname f <> "".
Proof.
  intros Hroots added.
  assert (Hadded : forall p, p ∈ added -> OsPath.dirname p <> "").
  { subst added. intros p Hp.
    apply list_elem_of_In, List.in_concat in Hp as (paths & Hpaths & Hp).
    apply list_elem_of_In in Hpaths, Hp.
    apply list_elem_of_fmap in Hpaths as ([[root dirs] files] & -> & Htriple).
    apply list_elem_of_fmap in Hp as (file & -> & Hfile).
    apply dirname_has_slash, join_has_slash.
    rewrite Forall_forall in Hroots. exact (Hroots _ Htriple). }
  assert (Heq : forall file_list,
             traverse_local_files env path file_list
             = default [] file_list ++ added).
  { intros l. unfold traverse_local_files. apply collect_walk_app. }
  split; [apply Heq|]. split; [exact Hadded|].
  intros f Hf. apply relevant_allow_listed in Hf as [Hf _].
  rewrite Heq in Hf. apply Hadded, Hf.
Qed.

Lemma walked_paths_have_directory_witness :
  Forall (fun '(root, _, _) => root <> "") (os_walk tree_env "./")
  /\ traverse_local_files tree_env "./" (Some ["given.txt"])
     = ["given.txt"; "./a.php"; "./notes.md"; "./db/seed.sql"]
  /\ OsPath.dirname "./db/seed.sql" <> "".
Proof.
  assert (Hroots : Forall (fun '(root, _, _) => root <> "") (os_walk tree_env "./"))
    by (repeat constructor; discriminate).
  destruct (walked_paths_have_directory tree_env "./" (Some ["given.txt"]) Hroots)
    as (Heq & Hadded & _).
  split; [exact Hroots|]. split; [rewrite Heq; reflexivity|].
  apply Hadded. apply (bool_decide_unpack _). vm_compute. exact I.
Defined.

(** ** The lines of a run *)

Lemma process_file_lines (env : Env) (st : MainState) (f : string) :
  List.filter is_opening_line (trace (world (process_file env st f)))
  = List.filter is_opening_line (trace (world st)) ++ [Print (MsgProcessing f)]
  /\ length (List.filter is_closing_line (trace (world (process_file env st f))))
     = S (length (List.filter is_closing_line (trace (world st)))).
Proof.
  unfold process_file. turn_cases; rewrite ?except_eq, ?at_try_eq;
    cbn [world with_world add_events trace];
    rewrite <- ?app_assoc, !List.filter_app, ?length_app;
    cbn [List.filter is_opening_line is_closing_line app length];
    rewrite ?app_nil_r; split; try reflexivity; lia.
Qed.

Lemma process_files_lines (env : Env) (l : list string) (st : MainState) :
  List.filter is_opening_line (trace (world (process_files env l st)))
  = List.filter is_opening_line (trace (world st))
    ++ map (fun f => Print (MsgProcessing f)) l
  /\ length (List.filter is_closing_line (trace (world (process_files env l st))))
     = (length (List.filter is_closing_line (trace (world st))) + length l)%nat.
Proof.
  revert st; induction l as [|f l IH]; intros st.
  - cbn. rewrite app_nil_r. split; [reflexivity | lia].
  - change (process_files env (f :: l) st)
      with (process_files env l (process_file env st f)).
    destruct (IH (process_file env st f)) as [-> ->].
    destruct (process_file_lines env st f) as [-> ->].
    rewrite <- app_assoc. cbn [app map length]. split; [reflexivity | lia].
Qed.

(** X15: every relevant file gets one turn, in the order of the walk, and
    every turn is closed by one line: the run prints the line that opens a
    turn once per relevant file, in that order, and as many closing lines
    (the writer's confirmation or the failure line) as there are relevant
    files. *)
Theorem every_file_accounted (env : Env) (w : World) :
  let relevant := relevant_files (traverse_local_files env LOCAL_REPO_PATH None) in
  let run := trace (world (snd (main env (main_start w)))) in
  List.filter is_opening_line run
  = List.filter is_opening_line (trace w)
    ++ map (fun f => Print (MsgProcessing f)) relevant
  /\ length (List.filter is_closing_line run)
     = (length (List.filter is_closing_line (trace w)) + length relevant)%nat.
Proof.
  intros relevant run. subst relevant run.
  pose proof (process_files_lines env
                (relevant_files (traverse_local_files env LOCAL_REPO_PATH None))
                (loop_start env w)) as [Hopen Hclose].
  rewrite loop_start_eq in Hopen at 2. rewrite loop_start_eq in Hclose at 2.
  cbn [world with_world add_events trace main_start] in Hopen, Hclose.
  rewrite List.filter_app in Hopen, Hclose.
  cbn [List.filter is_opening_line is_closing_line] in Hopen, Hclose.
  rewrite app_nil_r in Hopen, Hclose.
  fold (at_assembly env w) in Hopen, Hclose.
  rewrite main_cases.
  destruct (relevant_files (traverse_local_files env LOCAL_REPO_PATH None))
    as [|f l] eqn:Hrel.
  - cbn [snd with_world add_events world trace main_start map length].
    rewrite !List.filter_app. cbn [List.filter is_opening_line is_closing_line].
    rewrite !app_nil_r, ?length_app. cbn [length]. split; [reflexivity | lia].
  - main_tail; cbn [snd with_world add_events world trace];
      rewrite !List.filter_app, length_app, Hopen, Hclose;
      cbn [List.filter is_opening_line is_closing_line length];
      rewrite app_nil_r; split; try reflexivity; lia.
Qed.

